(** * A voice-activity detector front end: [src/index.ts]

    The TypeScript module wires a microphone stream to a frame processor and
    validates the detector's options.  This development embeds the module in
    Rocq and checks the statements of the specification against it.

    - JavaScript numbers are IEEE 754 binary64 values.  They are modelled by
      the Standard Library's [spec_float] at precision 53 and maximal
      exponent 1024, with the comparison, product and quotient that library
      defines; [Math.ceil] and [Array.prototype.includes] follow ECMAScript.
    - Logging and the browser's audio platform are effects.  They are modelled
      by a trace of events carried in a small writer-and-exception monad.
    - Objects are records; their mutable fields are threaded explicitly.  A
      call that may throw after it has assigned a field returns the object as
      it leaves it together with the exception.
    - An [ArrayBuffer] is its list of bytes; a [Float32Array] over it reads
      them four by four. *)

From Stdlib Require Import ZArith QArith Qpower List String Bool Lia.
From Stdlib Require Import SpecFloat.
From Stdlib Require Strings.Byte.
Import ListNotations.

Set Implicit Arguments.

(** ** JavaScript numbers *)

Module Number.

Definition prec : Z := 53.
Definition emax : Z := 1024.

Definition number : Type := spec_float.

(** An integer literal. *)
Definition of_Z (z : Z) : number := binary_normalize prec emax z 0 false.

Definition mul : number -> number -> number := SFmul prec emax.
Definition div : number -> number -> number := SFdiv prec emax.
Definition sub : number -> number -> number := SFsub prec emax.

(** A decimal literal [a / b] with [a] and [b] exactly representable: the
    correctly rounded quotient is the double nearest to the decimal. *)
Definition decimal (a b : Z) : number := div (of_Z a) (of_Z b).

(** The relational operators.  [x > y] is evaluated as [y < x]; every
    comparison with NaN is false. *)
Definition lt (x y : number) : bool := SFltb x y.
Definition gt (x y : number) : bool := SFltb y x.
Definition le (x y : number) : bool := SFleb x y.
Definition ge (x y : number) : bool := SFleb y x.
(** Strict equality [x === y] on numbers. *)
Definition eq (x y : number) : bool := SFeqb x y.

Definition isFinite (x : number) : bool :=
  match x with S754_zero _ | S754_finite _ _ _ => true | _ => false end.

(** SameValueZero, the comparison of [Array.prototype.includes]. *)
Definition sameValueZero (x y : number) : bool :=
  match x, y with
  | S754_nan, S754_nan => true
  | _, _ => SFeqb x y
  end.

Fixpoint includes (l : list number) (x : number) : bool :=
  match l with
  | [] => false
  | y :: l' => sameValueZero y x || includes l' x
  end.

(** The ceiling of [a / b], for [b] positive. *)
Definition ceil_div (a b : Z) : Z := - ((- a) / b).

(** The integer [Math.ceil] computes for the finite value [(-1)^s m 2^e]. *)
Definition ceilZ (s : bool) (m : positive) (e : Z) : Z :=
  match e with
  | Zneg p => ceil_div (cond_Zopp s (Zpos m)) (Z.pow_pos 2 p)
  | _ => cond_Zopp s (Zpos m) * 2 ^ e
  end.

(** The double holding the non-zero integer [(-1)^s k], for [k] below
    [2^53]: the mantissa is shifted to the canonical exponent. *)
Definition of_pos (s : bool) (k : positive) : number :=
  let '(m, e) := shl_align k 0 (fexp prec emax (Zpos (digits2_pos k))) in
  S754_finite s m e.

(** [Math.ceil]: NaN, the infinities and the zeros are returned unchanged, so
    is a finite number without fractional bits; a number in (-1, 0) gives
    [-0]. *)
Definition Math_ceil (x : number) : number :=
  match x with
  | S754_finite s m (Zneg p) =>
      match ceilZ s m (Zneg p) with
      | Z0 => S754_zero s
      | Zpos k => of_pos false k
      | Zneg k => of_pos true k
      end
  | _ => x
  end.

(** The rational a finite double denotes. *)
Definition F2Q (s : bool) (m : positive) (e : Z) : Q :=
  (inject_Z (cond_Zopp s (Zpos m)) * (2 # 1) ^ e)%Q.

Definition value (x : number) : option Q :=
  match x with
  | S754_zero _ => Some 0%Q
  | S754_finite s m e => Some (F2Q s m e)
  | _ => None
  end.

(** [x] denotes the integer [n]. *)
Definition is_integer (x : number) (n : Z) : Prop :=
  exists q, value x = Some q /\ (q == inject_Z n)%Q.

(** [x] is a double: its mantissa and exponent are the canonical ones. *)
Definition valid (x : number) : bool := valid_binary prec emax x.

End Number.

Import Number.

(** ** Effects: a trace of events, and exceptions *)

Inductive Level : Type := Debug | Warn | Error.

Definition Frame : Type := list number.

(** The callbacks of the options: the two logging defaults, the empty
    default, or a function supplied by the caller, named by a handle. *)
Inductive Callback : Type :=
| DefaultOnSpeechStart
| DefaultOnSpeechEnd
| Noop
| User (handle : nat).

(** The probabilities the model returns for a frame (of [./models]). *)
Record SpeechProbabilities : Type := {
  notSpeech : number;
  isSpeech : number
}.

(** The option a callback was given as, and the argument of a call. *)
Inductive Role : Type :=
| OnSpeechStart
| OnSpeechEnd
| OnFrameProcessed
| SignalMisfire.

Inductive Arg : Type :=
| NoArg
| Audio (audio : Frame)
| Probabilities (p : SpeechProbabilities).

(** What the program does to the outside world, in order. *)
Inductive Event : Type :=
| Log (lvl : Level) (msg : string)
| GetUserMedia
| SetTrackEnabled (enabled : bool)
| NewAudioContext
| NewMediaStreamAudioSourceNode
| AddModule (url : string)
| NewAudioWorkletNode (processor : string) (frameSamples : number)
| SileroNew
| NewFrameProcessor
| SetOnMessage
| Connect
| FrameProcessorPause
| FrameProcessorResume
| FrameProcessorProcess (frame : Frame)
| SileroProcess
| SileroResetState
| Called (role : Role) (cb : Callback) (speaking : bool).

Inductive Exn : Type :=
| TypeError (what : string)
| RangeError (what : string)
| Rejected (what : string).

Inductive Result (A : Type) : Type :=
| Ok (a : A)
| Throw (e : Exn).

Arguments Ok {A} a.
Arguments Throw {A} e.

(** A computation yields the events it performed and either a value or the
    exception that stopped it. *)
Definition M (A : Type) : Type := (list Event * Result A)%type.

Definition ret {A : Type} (a : A) : M A := ([], Ok a).

Definition bind {A B : Type} (m : M A) (f : A -> M B) : M B :=
  match m with
  | (t, Ok a) => let '(t', r) := f a in (t ++ t', r)
  | (t, Throw e) => (t, Throw e)
  end.

Definition emit (e : Event) : M unit := ([e], Ok tt).
Definition throw {A : Type} (e : Exn) : M A := ([], Throw e).

Definition trace {A : Type} (m : list Event * A) : list Event := fst m.
Definition outcome {A : Type} (m : M A) : Result A := snd m.

Notation "x <- c1 ;; c2" := (bind c1 (fun x => c2))
  (at level 61, c1 at next level, right associativity).
Notation "c1 ;; c2" := (bind c1 (fun _ => c2))
  (at level 61, right associativity).

Definition when (b : bool) (c : M unit) : M unit := if b then c else ret tt.

(** A call on an object that may throw after it has assigned fields: the
    events, the object as the call leaves it, and the exception if it
    threw. *)
Definition Kept (A : Type) : Type := (list Event * (A * option Exn))%type.

Definition leaves {A : Type} (k : Kept A) : A := fst (snd k).
Definition throws {A : Type} (k : Kept A) : option Exn := snd (snd k).

(** A computation that assigns nothing before it throws: the object is then
    as it was. *)
Definition keep {A : Type} (a : A) (m : M A) : Kept A :=
  match m with
  | (t, Ok a') => (t, (a', None))
  | (t, Throw e) => (t, (a, Some e))
  end.

(** The events [t], then the call [k]. *)
Definition after {A : Type} (t : list Event) (k : Kept A) : Kept A :=
  (t ++ fst k, snd k).

(** The promise of an asynchronous call: resolved with the object, or
    rejected with the exception. *)
Definition settle {A : Type} (k : Kept A) : M A :=
  match k with
  | (t, (a, None)) => (t, Ok a)
  | (t, (_, Some e)) => (t, Throw e)
  end.

(** The call [k], then [f] on the object it leaves, unless [k] threw. *)
Definition and_then {A : Type} (k : Kept A) (f : A -> Kept A) : Kept A :=
  match k with
  | (t, (a, None)) => after t (f a)
  | (t, (a, Some e)) => (t, (a, Some e))
  end.

(** Modelled from the spec: [log] of [./logging], which is not part of the
    sources at hand.  The specification says of a malformed configuration that
    the original "only logs and continues": a call records its message at its
    level and returns. *)
Module log.

Definition debug (msg : string) : M unit := emit (Log Debug msg).
Definition warn (msg : string) : M unit := emit (Log Warn msg).
Definition error (msg : string) : M unit := emit (Log Error msg).

End log.

(** ** Typed arrays *)

Definition ArrayBuffer : Type := list Byte.byte.

(** The binary32 number with the bits [w], as the double of the same value:
    bit 31 is the sign, bits 30 to 23 the biased exponent, bits 22 to 0 the
    fraction. *)
Definition float32_of_bits (w : Z) : number :=
  let s := Z.testbit w 31 in
  let e := Z.land (Z.shiftr w 23) 255 in
  let f := Z.land w (Z.ones 23) in
  if (e =? 255)%Z then
    if (f =? 0)%Z then S754_infinity s else S754_nan
  else if (e =? 0)%Z then
    binary_normalize prec emax (cond_Zopp s f) (-149) s
  else
    binary_normalize prec emax (cond_Zopp s (2 ^ 23 + f)) (e - 150) s.

(** Four bytes in the order of the buffer, the least significant first: a
    typed array reads its buffer in the byte order of the platform, which is
    little-endian wherever browsers run. *)
Definition bits_of_bytes (b0 b1 b2 b3 : Byte.byte) : Z :=
  Z.of_N (Byte.to_N b0) + 2 ^ 8 * Z.of_N (Byte.to_N b1)
  + 2 ^ 16 * Z.of_N (Byte.to_N b2) + 2 ^ 24 * Z.of_N (Byte.to_N b3).

Fixpoint float32s (buffer : ArrayBuffer) : Frame :=
  match buffer with
  | b0 :: b1 :: b2 :: b3 :: rest =>
      float32_of_bits (bits_of_bytes b0 b1 b2 b3) :: float32s rest
  | _ => []
  end.

Definition msg_byte_length : string :=
  "byte length of Float32Array should be a multiple of 4".

(** [new Float32Array(buffer)]: a view of the whole buffer, which throws a
    [RangeError] when the byte length is not a multiple of the element
    size. *)
Definition Float32Array (buffer : ArrayBuffer) : Result Frame :=
  if (List.length buffer mod 4 =? 0)%nat then Ok (float32s buffer)
  else Throw (RangeError msg_byte_length).

(** ** Options *)

Record VadOptions : Type := {
  onSpeechStart : Callback;
  onSpeechEnd : Callback;
  onFrameProcessed : Callback;
  signalMisfire : Callback;
  positiveSpeechThreshold : number;
  negativeSpeechThreshold : number;
  redemptionFrames : number;
  frameSamples : number;
  preSpeechPadFrames : number;
  minSpeechFrames : number
}.

(** [Partial<VadOptions>]: every field may be absent. *)
Record PartialVadOptions : Type := {
  p_onSpeechStart : option Callback;
  p_onSpeechEnd : option Callback;
  p_onFrameProcessed : option Callback;
  p_signalMisfire : option Callback;
  p_positiveSpeechThreshold : option number;
  p_negativeSpeechThreshold : option number;
  p_redemptionFrames : option number;
  p_frameSamples : option number;
  p_preSpeechPadFrames : option number;
  p_minSpeechFrames : option number
}.

(** The statement the module runs when it is loaded. *)
Definition on_load : M unit := log.debug "WELCOME TO VAD".

Definition RECOMMENDED_FRAME_SAMPLES : list number :=
  [of_Z 512; of_Z 1024; of_Z 1536].

Definition minSamplesForTargetMS (targetDuration frameSamples sr : number) : number :=
  Math_ceil (div (div (mul targetDuration sr) (of_Z 1000)) frameSamples).

(** The default of the third parameter. *)
Definition default_sr : number := of_Z 16000.

Definition defaultVadOptions : VadOptions := {|
  onSpeechStart := DefaultOnSpeechStart;
  onSpeechEnd := DefaultOnSpeechEnd;
  onFrameProcessed := Noop;
  signalMisfire := Noop;
  positiveSpeechThreshold := decimal 5 10;
  negativeSpeechThreshold := sub (decimal 5 10) (decimal 15 100);
  preSpeechPadFrames := of_Z 1;
  redemptionFrames := of_Z 2;
  frameSamples := of_Z 1536;
  minSpeechFrames := of_Z 3
|}.

Definition or_default {A : Type} (d : A) (o : option A) : A :=
  match o with Some a => a | None => d end.

(** The object spread [{ ...defaults, ...options }]. *)
Definition spread (defaults : VadOptions) (options : PartialVadOptions) : VadOptions := {|
  onSpeechStart := or_default defaults.(onSpeechStart) options.(p_onSpeechStart);
  onSpeechEnd := or_default defaults.(onSpeechEnd) options.(p_onSpeechEnd);
  onFrameProcessed := or_default defaults.(onFrameProcessed) options.(p_onFrameProcessed);
  signalMisfire := or_default defaults.(signalMisfire) options.(p_signalMisfire);
  positiveSpeechThreshold :=
    or_default defaults.(positiveSpeechThreshold) options.(p_positiveSpeechThreshold);
  negativeSpeechThreshold :=
    or_default defaults.(negativeSpeechThreshold) options.(p_negativeSpeechThreshold);
  redemptionFrames := or_default defaults.(redemptionFrames) options.(p_redemptionFrames);
  frameSamples := or_default defaults.(frameSamples) options.(p_frameSamples);
  preSpeechPadFrames := or_default defaults.(preSpeechPadFrames) options.(p_preSpeechPadFrames);
  minSpeechFrames := or_default defaults.(minSpeechFrames) options.(p_minSpeechFrames)
|}.

Definition no_options : PartialVadOptions := {|
  p_onSpeechStart := None; p_onSpeechEnd := None;
  p_onFrameProcessed := None; p_signalMisfire := None;
  p_positiveSpeechThreshold := None; p_negativeSpeechThreshold := None;
  p_redemptionFrames := None; p_frameSamples := None;
  p_preSpeechPadFrames := None; p_minSpeechFrames := None
|}.

Definition msg_frame_size : string := "You are using an unusual frame size".
Definition msg_positive : string :=
  "postiveSpeechThreshold should be a number between 0 and 1".
Definition msg_negative : string :=
  "negativeSpeechThreshold should be between 0 and postiveSpeechThreshold".
Definition msg_pad : string := "preSpeechPadFrames should be positive".

Definition validateOptions (options : VadOptions) : M unit :=
  when (negb (includes RECOMMENDED_FRAME_SAMPLES options.(frameSamples)))
    (log.warn msg_frame_size) ;;
  when (lt options.(positiveSpeechThreshold) (of_Z 0)
        || gt options.(negativeSpeechThreshold) (of_Z 1))
    (log.error msg_positive) ;;
  when (lt options.(negativeSpeechThreshold) (of_Z 0)
        || gt options.(negativeSpeechThreshold) options.(positiveSpeechThreshold))
    (log.error msg_negative) ;;
  when (lt options.(preSpeechPadFrames) (of_Z 0))
    (log.error msg_pad) ;;
  when (lt options.(redemptionFrames) (of_Z 0))
    (log.error msg_pad).

(** ** The frame processor, as [index.ts] uses it

    [./frame-processor] is not part of the sources at hand.  [index.ts] builds
    a [FrameProcessor] from an object of handlers and thresholds, and calls
    its [pause], [resume] and [process].  The development takes the class as
    an interface: an implementation answers a frame with the handlers it
    calls, in order. *)

(** A function handed to the frame processor: an option of the caller passed
    as it is, or one of the two arrow functions [init] creates. *)
Inductive Handler : Type :=
| FrameProcessedOption (cb : Callback)
| MisfireOption (cb : Callback)
| SpeechStartClosure
| SpeechEndClosure.

Record FrameProcessorOptions : Type := {
  fp_onFrameProcessed : Handler;
  fp_signalSpeechStart : Handler;
  fp_signalSpeechEnd : Handler;
  fp_signalMisfire : Handler;
  fp_positiveSpeechThreshold : number;
  fp_negativeSpeechThreshold : number;
  fp_redemptionFrames : number;
  fp_preSpeechPadFrames : number;
  fp_minSpeechFrames : number
}.

Definition Call : Type := (Handler * Arg)%type.

Class FrameProcessorI (FP : Type) : Type := {
  fp_new : FrameProcessorOptions -> FP;
  fp_pause : FP -> FP;
  fp_resume : FP -> FP;
  (** [None]: the promise of [process] is rejected. *)
  fp_process : FP -> Frame -> option (FP * list Call)
}.

(** The outcome of the platform's promises. *)
Record Platform : Type := {
  getUserMedia_ok : bool;
  addModule_ok : bool;
  silero_ok : bool
}.

(** A message of the worklet: [Message.AudioFrame] with the samples of a
    frame in an [ArrayBuffer], or anything else. *)
Inductive MessageEvent : Type :=
| AudioFrame (buffer : ArrayBuffer)
| OtherMessage.

(** An audio node of the caller, as [receive] uses it: the exception its
    [connect] throws when it is given the entry node, if it throws. *)
Record AudioNode : Type := { connect_throws : option Exn }.

(** ** class AudioNodeVAD *)

Module AudioNodeVAD.
Section WithFrameProcessor.

Context {FP : Type} {fpi : FrameProcessorI FP}.

Record t : Type := {
  listening : bool;
  speaking : bool;
  frameProcessor : option FP;
  entryNode : option unit;
  options : VadOptions
}.

(** What a function of the caller does when it runs: every field of the
    object is public, and the function returns or throws. *)
Variable user_code : nat -> Arg -> t -> t * option Exn.

Definition set_listening (b : bool) (vad : t) : t :=
  {| listening := b; speaking := vad.(speaking);
     frameProcessor := vad.(frameProcessor); entryNode := vad.(entryNode);
     options := vad.(options) |}.

Definition set_speaking (b : bool) (vad : t) : t :=
  {| listening := vad.(listening); speaking := b;
     frameProcessor := vad.(frameProcessor); entryNode := vad.(entryNode);
     options := vad.(options) |}.

Definition set_frameProcessor (fp : option FP) (vad : t) : t :=
  {| listening := vad.(listening); speaking := vad.(speaking);
     frameProcessor := fp; entryNode := vad.(entryNode);
     options := vad.(options) |}.

Definition set_entryNode (n : option unit) (vad : t) : t :=
  {| listening := vad.(listening); speaking := vad.(speaking);
     frameProcessor := vad.(frameProcessor); entryNode := n;
     options := vad.(options) |}.

Definition constructor (options : VadOptions) : M t :=
  validateOptions options ;;
  ret {| listening := false; speaking := false;
         frameProcessor := None; entryNode := None;
         options := options |}.

Definition pause (vad : t) : M t :=
  log.debug "pausing vad" ;;
  match vad.(frameProcessor) with
  | None => throw (TypeError "frameProcessor is undefined")
  | Some fp =>
      emit FrameProcessorPause ;;
      ret (set_listening false (set_frameProcessor (Some (fp_pause fp)) vad))
  end.

Definition start (vad : t) : M t :=
  log.debug "starting vad" ;;
  match vad.(frameProcessor) with
  | None => throw (TypeError "frameProcessor is undefined")
  | Some fp =>
      emit FrameProcessorResume ;;
      ret (set_frameProcessor (Some (fp_resume fp)) vad)
  end.

Definition receive (node : AudioNode) (vad : t) : M t :=
  match vad.(entryNode) with
  | None => throw (TypeError "entryNode is undefined")
  | Some _ =>
      emit Connect ;;
      match node.(connect_throws) with
      | Some e => throw e
      | None => ret vad
      end
  end.

(** A call of a callback of the options.  The event records the value of
    [speaking] at the moment the callback is entered.  A function of the
    caller may throw, and leaves the object as it made it. *)
Definition invoke (role : Role) (cb : Callback) (arg : Arg) (vad : t) : Kept t :=
  after [Called role cb vad.(speaking)]
    match cb with
    | DefaultOnSpeechStart => keep vad (log.debug "Detected speech start" ;; ret vad)
    | DefaultOnSpeechEnd => keep vad (log.debug "Detected speech end" ;; ret vad)
    | Noop => keep vad (ret vad)
    | User h => ([], user_code h arg vad)
    end.

Definition signalSpeechStart (vad : t) : Kept t :=
  let vad := set_speaking true vad in
  invoke OnSpeechStart vad.(options).(onSpeechStart) NoArg vad.

Definition signalSpeechEnd (audio : Arg) (vad : t) : Kept t :=
  let vad := set_speaking false vad in
  invoke OnSpeechEnd vad.(options).(onSpeechEnd) audio vad.

Definition run_handler (c : Call) (vad : t) : Kept t :=
  match fst c with
  | FrameProcessedOption cb => invoke OnFrameProcessed cb (snd c) vad
  | MisfireOption cb => invoke SignalMisfire cb (snd c) vad
  | SpeechStartClosure => signalSpeechStart vad
  | SpeechEndClosure => signalSpeechEnd (snd c) vad
  end.

(** The calls [process] makes for a frame, in order.  A handler that throws
    ends them: the exception leaves [process], which the interface takes to
    have reached its next state by then. *)
Fixpoint run_handlers (cs : list Call) (vad : t) : Kept t :=
  match cs with
  | [] => ([], (vad, None))
  | c :: cs' => and_then (run_handler c vad) (run_handlers cs')
  end.

(** The handler [init] installs on the port of the worklet node.  The view
    of the buffer is made first, then [this.frameProcessor] is read and
    [process] awaited. *)
Definition onmessage (ev : MessageEvent) (vad : t) : Kept t :=
  match ev with
  | AudioFrame buffer =>
      match Float32Array buffer with
      | Throw e => ([], (vad, Some e))
      | Ok frame =>
          match vad.(frameProcessor) with
          | None => ([], (vad, Some (TypeError "frameProcessor is undefined")))
          | Some fp =>
              after [FrameProcessorProcess frame]
                match fp_process fp frame with
                | None => ([], (vad, Some (Rejected "process")))
                | Some (fp', calls) =>
                    run_handlers calls (set_frameProcessor (Some fp') vad)
                end
          end
      end
  | OtherMessage => ([], (vad, None))
  end.

Definition frameProcessorOptions (vad : t) : FrameProcessorOptions := {|
  fp_onFrameProcessed := FrameProcessedOption vad.(options).(onFrameProcessed);
  fp_signalSpeechStart := SpeechStartClosure;
  fp_signalSpeechEnd := SpeechEndClosure;
  fp_signalMisfire := MisfireOption vad.(options).(signalMisfire);
  fp_positiveSpeechThreshold := vad.(options).(positiveSpeechThreshold);
  fp_negativeSpeechThreshold := vad.(options).(negativeSpeechThreshold);
  fp_redemptionFrames := vad.(options).(redemptionFrames);
  fp_preSpeechPadFrames := vad.(options).(preSpeechPadFrames);
  fp_minSpeechFrames := vad.(options).(minSpeechFrames)
|}.

Definition init (env : Platform) (vad : t) : M t :=
  emit (AddModule "vad.worklet.js") ;;
  (if env.(addModule_ok) then ret tt else throw (Rejected "addModule")) ;;
  emit (NewAudioWorkletNode "vad-helper-worklet" vad.(options).(frameSamples)) ;;
  let vad := set_entryNode (Some tt) vad in
  emit SileroNew ;;
  (if env.(silero_ok) then ret tt else throw (Rejected "Silero.new")) ;;
  emit NewFrameProcessor ;;
  let vad := set_frameProcessor (Some (fp_new (frameProcessorOptions vad))) vad in
  emit SetOnMessage ;;
  ret vad.

Definition new (env : Platform) (options : PartialVadOptions) : M t :=
  vad <- constructor (spread defaultVadOptions options) ;;
  init env vad.

(** The methods a caller may invoke on an object, and the messages the
    worklet sends to it. *)
Inductive Op : Type :=
| OpPause
| OpStart
| OpReceive (node : AudioNode)
| OpMessage (ev : MessageEvent).

(** [pause], [start] and [receive] assign nothing before they throw. *)
Definition run_op (op : Op) (vad : t) : Kept t :=
  match op with
  | OpPause => keep vad (pause vad)
  | OpStart => keep vad (start vad)
  | OpReceive node => keep vad (receive node vad)
  | OpMessage ev => onmessage ev vad
  end.

(** A caller that goes on after an exception: the object is as the failed
    call left it. *)
Fixpoint run_ops (ops : list Op) (vad : t) : list Event * t :=
  match ops with
  | [] => ([], vad)
  | op :: ops' =>
      let '(tr, (vad', _)) := run_op op vad in
      let '(tr', v) := run_ops ops' vad' in (tr ++ tr', v)
  end.

End WithFrameProcessor.
End AudioNodeVAD.

(** ** class MicVAD *)

Module MicVAD.
Section WithFrameProcessor.

Context {FP : Type} {fpi : FrameProcessorI FP}.

Variable user_code : nat -> Arg -> @AudioNodeVAD.t FP -> @AudioNodeVAD.t FP * option Exn.

(** The first track of the stream [getUserMedia] resolves to. *)
Record MediaStream : Type := { enabled : bool }.

Record t : Type := {
  options : VadOptions;
  audioContext : option unit;
  stream : option MediaStream;
  audioNodeVAD : option (@AudioNodeVAD.t FP)
}.

Definition constructor (options : VadOptions) : M t :=
  validateOptions options ;;
  ret {| options := options; audioContext := None;
         stream := None; audioNodeVAD := None |}.

(** [MicVAD.init] hands [this.options], in which every field is present, to
    [AudioNodeVAD.new]. *)
Definition all_present (o : VadOptions) : PartialVadOptions := {|
  p_onSpeechStart := Some o.(onSpeechStart);
  p_onSpeechEnd := Some o.(onSpeechEnd);
  p_onFrameProcessed := Some o.(onFrameProcessed);
  p_signalMisfire := Some o.(signalMisfire);
  p_positiveSpeechThreshold := Some o.(positiveSpeechThreshold);
  p_negativeSpeechThreshold := Some o.(negativeSpeechThreshold);
  p_redemptionFrames := Some o.(redemptionFrames);
  p_frameSamples := Some o.(frameSamples);
  p_preSpeechPadFrames := Some o.(preSpeechPadFrames);
  p_minSpeechFrames := Some o.(minSpeechFrames)
|}.

(** The source node [init] makes of the stream, in the audio context the
    worklet node is made in: its [connect] accepts the entry node. *)
Definition source : AudioNode := {| connect_throws := None |}.

Definition init (env : Platform) (vad : t) : M t :=
  emit GetUserMedia ;;
  (if env.(getUserMedia_ok) then ret tt else throw (Rejected "getUserMedia")) ;;
  emit (SetTrackEnabled false) ;;
  emit NewAudioContext ;;
  emit NewMediaStreamAudioSourceNode ;;
  node <- AudioNodeVAD.new env (all_present vad.(options)) ;;
  node <- AudioNodeVAD.receive source node ;;
  ret {| options := vad.(options); audioContext := Some tt;
         stream := Some {| enabled := false |}; audioNodeVAD := Some node |}.

Definition new (env : Platform) (options : PartialVadOptions) : M t :=
  vad <- constructor (spread defaultVadOptions options) ;;
  init env vad.

Definition set_track (b : bool) (vad : t) : M t :=
  match vad.(stream) with
  | Some _ =>
      emit (SetTrackEnabled b) ;;
      ret {| options := vad.(options); audioContext := vad.(audioContext);
             stream := Some {| enabled := b |}; audioNodeVAD := vad.(audioNodeVAD) |}
  | None => ret vad
  end.

Definition with_node (f : @AudioNodeVAD.t FP -> M (@AudioNodeVAD.t FP)) (vad : t) : M t :=
  match vad.(audioNodeVAD) with
  | None => throw (TypeError "audioNodeVAD is undefined")
  | Some node =>
      node' <- f node ;;
      ret {| options := vad.(options); audioContext := vad.(audioContext);
             stream := vad.(stream); audioNodeVAD := Some node' |}
  end.

Definition pause (vad : t) : M t :=
  vad <- with_node AudioNodeVAD.pause vad ;; set_track false vad.

Definition start (vad : t) : M t :=
  vad <- with_node AudioNodeVAD.start vad ;; set_track true vad.

(** The messages of the worklet reach the handler of the audio node, up to
    the first one whose handling is rejected. *)
Fixpoint deliver (evs : list MessageEvent) (vad : t) : M t :=
  match evs with
  | [] => ret vad
  | ev :: evs' =>
      vad' <- with_node (fun node => settle (AudioNodeVAD.onmessage user_code ev node)) vad ;;
      deliver evs' vad'
  end.

(** A use of the class: [MicVAD.new], then [start], then the frames of the
    worklet. *)
Definition session (env : Platform) (options : PartialVadOptions)
    (evs : list MessageEvent) : M t :=
  vad <- new env options ;;
  vad <- start vad ;;
  deliver evs vad.

End WithFrameProcessor.
End MicVAD.

(** ** The frame decision engine of the specification *)

Module FrameProcessor.
Section WithModel.

(** The acoustic probability source: [infer] may fail, [resetState] clears the
    recurrent state. *)
Variable ModelState : Type.
Variable infer : ModelState -> Frame -> option (ModelState * SpeechProbabilities).
Variable resetState : ModelState -> ModelState.
Variable initialModel : ModelState.

(** Modelled from the spec: the phases and the state of the engine (section
    3 of the specification): the pad buffer, the accumulator, the number of
    lead-in frames the accumulator was seeded with, and the redemption
    counter.  [./frame-processor] is missing. *)
Inductive EngineState : Type := Idle | Active.

Record t : Type := {
  options : FrameProcessorOptions;
  paused : bool;
  phase : EngineState;
  padBuffer : list Frame;
  accumulator : list Frame;
  leadIn : nat;
  redemptionCounter : number;
  model : ModelState
}.

Definition new (options : FrameProcessorOptions) : t := {|
  options := options; paused := false; phase := Idle;
  padBuffer := []; accumulator := []; leadIn := 0%nat;
  redemptionCounter := options.(fp_redemptionFrames);
  model := initialModel
|}.

Definition set_paused (b : bool) (fp : t) : t := {|
  options := fp.(options); paused := b; phase := fp.(phase);
  padBuffer := fp.(padBuffer); accumulator := fp.(accumulator);
  leadIn := fp.(leadIn); redemptionCounter := fp.(redemptionCounter);
  model := fp.(model)
|}.

(** Modelled from the spec: [pause] suspends processing without discarding
    state, [resume] re-enables it from the same state (section 4.1). *)
Definition pause (fp : t) : t := set_paused true fp.
Definition resume (fp : t) : t := set_paused false fp.

Definition count (l : list Frame) : number := of_Z (Z.of_nat (List.length l)).

(** Modelled from the spec: the pad buffer holds at most
    [preSpeechPadFrames] frames, the oldest one leaving when a push exceeds
    the capacity (section 3). *)
Definition push (capacity : number) (frame : Frame) (pad : list Frame) : list Frame :=
  let pad' := pad ++ [frame] in
  if gt (count pad') capacity then tl pad' else pad'.

(** Modelled from the spec: the per-frame step of the Frame Decision Engine
    (section 4.1), whose source file [./frame-processor] is missing.  In
    [Idle]: query the source, report the probability, and on
    [speechScore >= positiveSpeechThreshold] seed the accumulator with the pad
    buffer, append the frame, reset the counter to [redemptionFrames], signal
    the start and clear the pad buffer; otherwise the frame is pushed into
    the pad buffer.  The lead-in is made of the frames seen before the onset,
    [min(preSpeechPadFrames, frames seen before onset)] of them, as section 8
    states: the frame of the onset itself enters the accumulator once.  In
    [Active]: query, report, append the frame, reset the counter on
    [speechScore >= negativeSpeechThreshold] and decrement it otherwise; when
    it is 0, signal a misfire if fewer than [minSpeechFrames] frames were
    accumulated since the onset and the end with the concatenated audio
    otherwise, reset the source, clear both buffers and return to [Idle].  A
    paused engine consumes no frame; a failure of the source leaves the state
    as it was. *)
Definition process (fp : t) (frame : Frame) : option (t * list Call) :=
  if fp.(paused) then Some (fp, []) else
  match infer fp.(model) frame with
  | None => None
  | Some (m, probs) =>
      let o := fp.(options) in
      let score := probs.(isSpeech) in
      let report := (o.(fp_onFrameProcessed), Probabilities probs) in
      match fp.(phase) with
      | Idle =>
          if ge score o.(fp_positiveSpeechThreshold) then
            Some ({| options := o; paused := false; phase := Active;
                     padBuffer := [];
                     accumulator := fp.(padBuffer) ++ [frame];
                     leadIn := List.length fp.(padBuffer);
                     redemptionCounter := o.(fp_redemptionFrames);
                     model := m |},
                  [report; (o.(fp_signalSpeechStart), NoArg)])
          else
            Some ({| options := o; paused := false; phase := Idle;
                     padBuffer := push o.(fp_preSpeechPadFrames) frame fp.(padBuffer);
                     accumulator := fp.(accumulator);
                     leadIn := fp.(leadIn);
                     redemptionCounter := fp.(redemptionCounter);
                     model := m |},
                  [report])
      | Active =>
          let acc := fp.(accumulator) ++ [frame] in
          let counter :=
            if ge score o.(fp_negativeSpeechThreshold)
            then o.(fp_redemptionFrames)
            else sub fp.(redemptionCounter) (of_Z 1) in
          if eq counter (of_Z 0) then
            let verdict :=
              if lt (count (skipn fp.(leadIn) acc)) o.(fp_minSpeechFrames)
              then (o.(fp_signalMisfire), NoArg)
              else (o.(fp_signalSpeechEnd), Audio (List.concat acc)) in
            Some ({| options := o; paused := false; phase := Idle;
                     padBuffer := []; accumulator := [];
                     leadIn := 0%nat; redemptionCounter := counter;
                     model := resetState m |},
                  [report; verdict])
          else
            Some ({| options := o; paused := false; phase := Active;
                     padBuffer := fp.(padBuffer); accumulator := acc;
                     leadIn := fp.(leadIn); redemptionCounter := counter;
                     model := m |},
                  [report])
      end
  end.

(** The frames of a stream, in order; the calls of all the steps. *)
Fixpoint feed (fp : t) (frames : list Frame) : option (t * list Call) :=
  match frames with
  | [] => Some (fp, [])
  | frame :: frames' =>
      match process fp frame with
      | None => None
      | Some (fp', calls) =>
          match feed fp' frames' with
          | None => None
          | Some (fp'', calls') => Some (fp'', calls ++ calls')
          end
      end
  end.

#[export] Instance frameProcessor : FrameProcessorI t := {|
  fp_new := new;
  fp_pause := pause;
  fp_resume := resume;
  fp_process := process
|}.

End WithModel.
End FrameProcessor.

(** ** Configurations used as examples *)

Definition with_thresholds (positive negative : number) (o : VadOptions) : VadOptions := {|
  onSpeechStart := o.(onSpeechStart); onSpeechEnd := o.(onSpeechEnd);
  onFrameProcessed := o.(onFrameProcessed); signalMisfire := o.(signalMisfire);
  positiveSpeechThreshold := positive; negativeSpeechThreshold := negative;
  redemptionFrames := o.(redemptionFrames); frameSamples := o.(frameSamples);
  preSpeechPadFrames := o.(preSpeechPadFrames); minSpeechFrames := o.(minSpeechFrames)
|}.

Definition with_minSpeechFrames (n : number) (o : VadOptions) : VadOptions := {|
  onSpeechStart := o.(onSpeechStart); onSpeechEnd := o.(onSpeechEnd);
  onFrameProcessed := o.(onFrameProcessed); signalMisfire := o.(signalMisfire);
  positiveSpeechThreshold := o.(positiveSpeechThreshold);
  negativeSpeechThreshold := o.(negativeSpeechThreshold);
  redemptionFrames := o.(redemptionFrames); frameSamples := o.(frameSamples);
  preSpeechPadFrames := o.(preSpeechPadFrames); minSpeechFrames := n
|}.

Definition with_frameSamples (n : number) (o : VadOptions) : VadOptions := {|
  onSpeechStart := o.(onSpeechStart); onSpeechEnd := o.(onSpeechEnd);
  onFrameProcessed := o.(onFrameProcessed); signalMisfire := o.(signalMisfire);
  positiveSpeechThreshold := o.(positiveSpeechThreshold);
  negativeSpeechThreshold := o.(negativeSpeechThreshold);
  redemptionFrames := o.(redemptionFrames); frameSamples := n;
  preSpeechPadFrames := o.(preSpeechPadFrames); minSpeechFrames := o.(minSpeechFrames)
|}.

(** The negative threshold, 0.6, lies above the positive one, 0.5. *)
Definition inverted_thresholds : VadOptions :=
  with_thresholds (decimal 5 10) (decimal 6 10) defaultVadOptions.

(** The positive threshold is 2, the negative one the default 0.35. *)
Definition positive_above_one : VadOptions :=
  with_thresholds (of_Z 2) defaultVadOptions.(negativeSpeechThreshold) defaultVadOptions.

(** Every number of the configuration is -1, the frame length included. *)
Definition all_negative : VadOptions := {|
  onSpeechStart := Noop; onSpeechEnd := Noop;
  onFrameProcessed := Noop; signalMisfire := Noop;
  positiveSpeechThreshold := of_Z (-1); negativeSpeechThreshold := of_Z (-1);
  redemptionFrames := of_Z (-1); frameSamples := of_Z (-1);
  preSpeechPadFrames := of_Z (-1); minSpeechFrames := of_Z (-1)
|}.

(** The conditions [validateOptions] tests, in its order. *)
Definition unusual_frame_size (o : VadOptions) : bool :=
  negb (includes RECOMMENDED_FRAME_SAMPLES o.(frameSamples)).
Definition positive_reported (o : VadOptions) : bool :=
  lt o.(positiveSpeechThreshold) (of_Z 0) || gt o.(negativeSpeechThreshold) (of_Z 1).
Definition negative_reported (o : VadOptions) : bool :=
  lt o.(negativeSpeechThreshold) (of_Z 0)
  || gt o.(negativeSpeechThreshold) o.(positiveSpeechThreshold).
Definition pad_reported (o : VadOptions) : bool :=
  lt o.(preSpeechPadFrames) (of_Z 0).
Definition redemption_reported (o : VadOptions) : bool :=
  lt o.(redemptionFrames) (of_Z 0).

Definition is_log (e : Event) : bool :=
  match e with Log _ _ => true | _ => false end.

(** Every other option at its default, [minSpeechFrames] at 0. *)
Definition no_minimum : VadOptions :=
  with_minSpeechFrames (of_Z 0) defaultVadOptions.

(** Frames of 2048 samples. *)
Definition long_frames : VadOptions :=
  with_frameSamples (of_Z 2048) defaultVadOptions.

(** A freshly constructed [MicVAD]. *)
Definition fresh_MicVAD (FP : Type) (o : VadOptions) : @MicVAD.t FP := {|
  MicVAD.options := o; MicVAD.audioContext := None;
  MicVAD.stream := None; MicVAD.audioNodeVAD := None
|}.

(** A freshly constructed [AudioNodeVAD]. *)
Definition fresh_AudioNodeVAD (FP : Type) (o : VadOptions) : @AudioNodeVAD.t FP := {|
  AudioNodeVAD.listening := false; AudioNodeVAD.speaking := false;
  AudioNodeVAD.frameProcessor := None; AudioNodeVAD.entryNode := None;
  AudioNodeVAD.options := o
|}.

(** The events by which the stream is acquired, the frame handler installed
    and a frame processed. *)
Definition stream_event (e : Event) : bool :=
  match e with
  | GetUserMedia | SetOnMessage | FrameProcessorProcess _ => true
  | _ => false
  end.


(** A probability source for the examples: it has no state and reports the
    first sample of the frame as the speech score. *)
Definition first_sample (_ : unit) (frame : Frame) : option (unit * SpeechProbabilities) :=
  Some (tt, {| notSpeech := of_Z 0; isSpeech := hd (of_Z 0) frame |}).

Definition ExampleProcessor : Type := FrameProcessor.t unit.

#[export] Instance exampleProcessor : FrameProcessorI ExampleProcessor :=
  FrameProcessor.frameProcessor first_sample (fun m => m) tt.

(** A caller whose functions leave the object alone and return. *)
Definition idle_user (_ : nat) (_ : Arg) (vad : @AudioNodeVAD.t ExampleProcessor) :
  @AudioNodeVAD.t ExampleProcessor * option Exn := (vad, None).

(** A caller whose functions leave the object alone; the one of handle 0
    throws. *)
Definition throwing_user (h : nat) (_ : Arg) (vad : @AudioNodeVAD.t ExampleProcessor) :
  @AudioNodeVAD.t ExampleProcessor * option Exn :=
  match h with
  | O => (vad, Some (Rejected "callback"))
  | _ => (vad, None)
  end.

(** The default options with [onSpeechStart] and [onSpeechEnd] given by the
    caller, as the functions of handles 0 and 1. *)
Definition with_callbacks : VadOptions := {|
  onSpeechStart := User 0; onSpeechEnd := User 1;
  onFrameProcessed := defaultVadOptions.(onFrameProcessed);
  signalMisfire := defaultVadOptions.(signalMisfire);
  positiveSpeechThreshold := defaultVadOptions.(positiveSpeechThreshold);
  negativeSpeechThreshold := defaultVadOptions.(negativeSpeechThreshold);
  redemptionFrames := defaultVadOptions.(redemptionFrames);
  frameSamples := defaultVadOptions.(frameSamples);
  preSpeechPadFrames := defaultVadOptions.(preSpeechPadFrames);
  minSpeechFrames := defaultVadOptions.(minSpeechFrames)
|}.

(** Buffers of one sample: 0.25, of bits [3E800000], and 0.75, of bits
    [3F400000]; a buffer of three bytes. *)
Definition quiet : ArrayBuffer := [Byte.x00; Byte.x00; Byte.x80; Byte.x3e].
Definition loud : ArrayBuffer := [Byte.x00; Byte.x00; Byte.x40; Byte.x3f].
Definition three_bytes : ArrayBuffer := [Byte.x00; Byte.x00; Byte.x40].

(** The frames the first two buffers hold. *)
Definition quiet_frame : Frame := [decimal 25 100].
Definition loud_frame : Frame := [decimal 75 100].

Definition all_ok : Platform :=
  {| getUserMedia_ok := true; addModule_ok := true; silero_ok := true |}.

(** The handlers and thresholds [AudioNodeVAD.init] passes for the default
    options. *)
Definition default_fp_options : FrameProcessorOptions :=
  AudioNodeVAD.frameProcessorOptions (fresh_AudioNodeVAD ExampleProcessor defaultVadOptions).

(** An engine inside a segment, one low frame away from its end. *)
Definition mid_segment : ExampleProcessor := {|
  FrameProcessor.options := default_fp_options;
  FrameProcessor.paused := false;
  FrameProcessor.phase := FrameProcessor.Active;
  FrameProcessor.padBuffer := [];
  FrameProcessor.accumulator := [[decimal 9 10]];
  FrameProcessor.leadIn := 0%nat;
  FrameProcessor.redemptionCounter := of_Z 1;
  FrameProcessor.model := tt
|}.

(** ** The ceiling of [minSamplesForTargetMS], in exact arithmetic *)

(** The quotient [minSamplesForTargetMS] hands to [Math.ceil]. *)
Definition quotient (targetDuration frameSamples sr : number) : number :=
  div (div (mul targetDuration sr) (of_Z 1000)) frameSamples.

(** [n] is the least integer not below [q]. *)
Definition ceiling_of (q : Q) (n : Z) : Prop :=
  (q <= inject_Z n)%Q /\ forall k, (q <= inject_Z k)%Q -> (n <= k)%Z.

(** The function returns the ceiling of the quotient it computed. *)
Definition returns_ceiling (t fs sr : number) : Prop :=
  exists n q,
    value (quotient t fs sr) = Some q /\
    is_integer (minSamplesForTargetMS t fs sr) n /\
    ceiling_of q n.

(** [n] frames of [fs] samples cover [t] milliseconds at the rate [sr]. *)
Definition covers (n : Z) (t fs sr : Q) : Prop :=
  (t * sr / 1000 <= inject_Z n * fs)%Q.

Definition least_cover (n : Z) (t fs sr : Q) : Prop :=
  covers n t fs sr /\ forall k, covers k t fs sr -> (n <= k)%Z.

(** The function returns the least number of whole frames that cover the
    duration, the three arguments read as the rationals they denote. *)
Definition returns_least_cover (t fs sr : number) : Prop :=
  exists n qt qfs qsr,
    value t = Some qt /\ value fs = Some qfs /\ value sr = Some qsr /\
    is_integer (minSamplesForTargetMS t fs sr) n /\
    least_cover n qt qfs qsr.

(** The computed quotient is the exact one: the product and the two
    divisions lost nothing to rounding. *)
Definition exact_quotient (t fs sr : number) : bool :=
  match value (quotient t fs sr), value t, value fs, value sr with
  | Some q, Some qt, Some qfs, Some qsr => Qeq_bool q (qt * qsr / 1000 / qfs)
  | _, _, _, _ => false
  end.

(** On the integers [T], [F] and [S], all represented exactly, the function
    returns the ceiling of [T * S / (1000 * F)]. *)
Definition agrees (T F S : Z) : bool :=
  match value (of_Z T), value (of_Z F), value (of_Z S),
        value (minSamplesForTargetMS (of_Z T) (of_Z F) (of_Z S)) with
  | Some qt, Some qf, Some qs, Some r =>
      Qeq_bool qt (inject_Z T) && Qeq_bool qf (inject_Z F) && Qeq_bool qs (inject_Z S)
      && Qeq_bool r (inject_Z (ceil_div (T * S) (1000 * F)))
  | _, _, _, _ => false
  end.

(** [P] holds of the [fuel] integers from [T] on. *)
Fixpoint all_from (fuel : nat) (T : Z) (P : Z -> bool) : bool :=
  match fuel with
  | O => true
  | S fuel' => P T && all_from fuel' (T + 1) P
  end.

(** Every whole number of milliseconds up to two seconds, at the frame
    length [F] and the default rate. *)
Definition two_seconds_agree (F : Z) : bool :=
  all_from (Z.to_nat 2001) 0 (fun T => agrees T F 16000).

(** A duration of 125842813622211 ms: its product with the rate 1000 is
    above [2^53] and is rounded. *)
Definition long_duration : number := of_Z 125842813622211.

(** The stream of section 8 of the specification, one sample per frame: the
    scores 0.1, 0.1, 0.9, 0.9, 0.9, 0.1, 0.1, 0.1. *)
Definition low : Frame := [decimal 1 10].
Definition high : Frame := [decimal 9 10].
Definition scenario : list Frame := [low; low; high; high; high; low; low; low].

(** The calls of a stream that carry a signal, the reports of the
    probabilities left out. *)
Definition signals (r : option (ExampleProcessor * list Call)) : list Call :=
  match r with
  | None => []
  | Some (_, calls) =>
      filter (fun c => match fst c with FrameProcessedOption _ => false | _ => true end)
        calls
  end.

Definition with_min (n : number) (o : FrameProcessorOptions) : FrameProcessorOptions := {|
  fp_onFrameProcessed := o.(fp_onFrameProcessed);
  fp_signalSpeechStart := o.(fp_signalSpeechStart);
  fp_signalSpeechEnd := o.(fp_signalSpeechEnd);
  fp_signalMisfire := o.(fp_signalMisfire);
  fp_positiveSpeechThreshold := o.(fp_positiveSpeechThreshold);
  fp_negativeSpeechThreshold := o.(fp_negativeSpeechThreshold);
  fp_redemptionFrames := o.(fp_redemptionFrames);
  fp_preSpeechPadFrames := o.(fp_preSpeechPadFrames);
  fp_minSpeechFrames := n
|}.

(** ** Callers of the two classes *)

(** The two methods a user of [MicVAD] calls after [MicVAD.new]. *)
Inductive Method : Type := CallPause | CallStart.

Section Callers.

Context {FP : Type} {fpi : FrameProcessorI FP}.
Variable user_code : nat -> Arg -> @AudioNodeVAD.t FP -> @AudioNodeVAD.t FP * option Exn.

Definition MicVAD_call (m : Method) (vad : @MicVAD.t FP) : M (@MicVAD.t FP) :=
  match m with
  | CallPause => MicVAD.pause vad
  | CallStart => MicVAD.start vad
  end.

(** Calls in sequence; an exception ends the sequence. *)
Fixpoint MicVAD_calls (ms : list Method) (vad : @MicVAD.t FP) : M (@MicVAD.t FP) :=
  match ms with
  | [] => ret vad
  | m :: ms' => vad' <- MicVAD_call m vad ;; MicVAD_calls ms' vad'
  end.

(** What the calls do to the frame processor. *)
Definition processor_after (ms : list Method) (fp : FP) : FP :=
  fold_left
    (fun fp m => match m with CallPause => fp_pause fp | CallStart => fp_resume fp end)
    ms fp.

(** The exceptions of a sequence of operations on an [AudioNodeVAD], whose
    caller goes on after each (as [AudioNodeVAD.run_ops] does). *)
Fixpoint thrown (ops : list AudioNodeVAD.Op) (vad : @AudioNodeVAD.t FP) : list Exn :=
  match ops with
  | [] => []
  | op :: ops' =>
      match AudioNodeVAD.run_op user_code op vad with
      | (_, (vad', None)) => thrown ops' vad'
      | (_, (vad', Some e)) => e :: thrown ops' vad'
      end
  end.

(** [init] has run: the worklet node and the frame processor are there. *)
Definition initialised (vad : @AudioNodeVAD.t FP) : bool :=
  match vad.(AudioNodeVAD.frameProcessor), vad.(AudioNodeVAD.entryNode) with
  | Some _, Some _ => true
  | _, _ => false
  end.

(** What an operation on an initialised object may throw: [pause] and
    [start] nothing, [receive] what [connect] of the node throws, the
    message handler what the view of the buffer throws and, once the view is
    made, the rejection of [process] or what a function of the caller
    throws. *)
Definition may_throw (op : AudioNodeVAD.Op) (e : Exn) : Prop :=
  match op with
  | AudioNodeVAD.OpPause | AudioNodeVAD.OpStart => False
  | AudioNodeVAD.OpReceive node => node.(connect_throws) = Some e
  | AudioNodeVAD.OpMessage OtherMessage => False
  | AudioNodeVAD.OpMessage (AudioFrame buffer) =>
      match Float32Array buffer with
      | Throw e' => e = e'
      | Ok _ =>
          e = Rejected "process" \/
          exists h arg vad, snd (user_code h arg vad) = Some e
      end
  end.

End Callers.

(** The node connects, the buffer holds whole 32-bit floats. *)
Definition well_formed (op : AudioNodeVAD.Op) : bool :=
  match op with
  | AudioNodeVAD.OpReceive node =>
      match node.(connect_throws) with None => true | Some _ => false end
  | AudioNodeVAD.OpMessage (AudioFrame buffer) =>
      (List.length buffer mod 4 =? 0)%nat
  | _ => true
  end.

(** Whether the track is enabled after the calls: the last call decides. *)
Definition enabled_after (ms : list Method) (b : bool) : bool :=
  fold_left
    (fun _ m => match m with CallStart => true | CallPause => false end)
    ms b.

(** The value of [speaking] after the calls of the frame processor: the last
    of the two speech signals decides. *)
Definition speaking_after (cs : list Call) (b : bool) : bool :=
  fold_left
    (fun b c =>
       match fst c with
       | SpeechStartClosure => true
       | SpeechEndClosure => false
       | _ => b
       end)
    cs b.

(** The number of calls of callbacks in a trace. *)
Definition calls_in (t : list Event) : nat :=
  List.length (filter (fun e => match e with Called _ _ _ => true | _ => false end) t).

Definition is_audio (ev : MessageEvent) : bool :=
  match ev with AudioFrame _ => true | OtherMessage => false end.

(** The frame of an operation: the view of the buffer of an audio message,
    when there is a view of it. *)
Definition frame_of (op : AudioNodeVAD.Op) : list Frame :=
  match op with
  | AudioNodeVAD.OpMessage (AudioFrame buffer) =>
      match Float32Array buffer with Ok frame => [frame] | Throw _ => [] end
  | _ => []
  end.

(** The frames among the messages of the operations, in order. *)
Definition audio_frames (ops : list AudioNodeVAD.Op) : list Frame :=
  flat_map frame_of ops.

(** The frames handed to [frameProcessor.process], in order. *)
Definition processed (t : list Event) : list Frame :=
  flat_map (fun e => match e with FrameProcessorProcess f => [f] | _ => [] end) t.

(** No entry of the trace is an error. *)
Definition no_error (t : list Event) : bool :=
  forallb (fun e => match e with Log Error _ => false | _ => true end) t.

(** No entry of the trace is a warning or an error. *)
Definition no_report (t : list Event) : bool :=
  forallb (fun e => match e with Log Warn _ | Log Error _ => false | _ => true end) t.


(** The options with two of the frame counts exchanged. *)
Definition swap_pad_redemption (o : VadOptions) : VadOptions := {|
  onSpeechStart := o.(onSpeechStart); onSpeechEnd := o.(onSpeechEnd);
  onFrameProcessed := o.(onFrameProcessed); signalMisfire := o.(signalMisfire);
  positiveSpeechThreshold := o.(positiveSpeechThreshold);
  negativeSpeechThreshold := o.(negativeSpeechThreshold);
  redemptionFrames := o.(preSpeechPadFrames); frameSamples := o.(frameSamples);
  preSpeechPadFrames := o.(redemptionFrames); minSpeechFrames := o.(minSpeechFrames)
|}.

(** Every number of the configuration is NaN. *)
Definition all_NaN : VadOptions := {|
  onSpeechStart := Noop; onSpeechEnd := Noop;
  onFrameProcessed := Noop; signalMisfire := Noop;
  positiveSpeechThreshold := S754_nan; negativeSpeechThreshold := S754_nan;
  redemptionFrames := S754_nan; frameSamples := S754_nan;
  preSpeechPadFrames := S754_nan; minSpeechFrames := S754_nan
|}.

(** The object [MicVAD.new] resolves to when the platform grants the stream,
    loads the worklet and the model. *)
Definition ready_AudioNodeVAD {FP : Type} {fpi : FrameProcessorI FP}
    (o : VadOptions) : @AudioNodeVAD.t FP := {|
  AudioNodeVAD.listening := false; AudioNodeVAD.speaking := false;
  AudioNodeVAD.frameProcessor :=
    Some (fp_new (AudioNodeVAD.frameProcessorOptions (fresh_AudioNodeVAD FP o)));
  AudioNodeVAD.entryNode := Some tt;
  AudioNodeVAD.options := o
|}.

Definition ready_MicVAD {FP : Type} {fpi : FrameProcessorI FP}
    (o : VadOptions) : @MicVAD.t FP := {|
  MicVAD.options := o; MicVAD.audioContext := Some tt;
  MicVAD.stream := Some {| MicVAD.enabled := false |};
  MicVAD.audioNodeVAD := Some (ready_AudioNodeVAD o)
|}.

(** A number that is neither NaN nor negative: a zero, a positive finite
    number or [+Infinity]. *)
Definition nonnegative (x : number) : bool := ge x (of_Z 0).

(** [x] is a zero, a finite number or an infinity of sign [s]. *)
Definition signed_is (s : bool) (x : number) : Prop :=
  match x with
  | S754_zero s' | S754_infinity s' | S754_finite s' _ _ => s' = s
  | S754_nan => False
  end.

(** * Properties *)

(** ** The monad *)

Lemma trace_bind (A B : Type) (m : M A) (f : A -> M B) :
  trace (bind m f) =
  trace m ++ match outcome m with Ok a => trace (f a) | Throw _ => [] end.
Proof.
  destruct m as [t [a | e]]; simpl.
  - destruct (f a) as [t' r]; reflexivity.
  - now rewrite app_nil_r.
Qed.

Lemma outcome_bind (A B : Type) (m : M A) (f : A -> M B) :
  outcome (bind m f) =
  match outcome m with Ok a => outcome (f a) | Throw e => Throw e end.
Proof.
  destruct m as [t [a | e]]; simpl; [destruct (f a); reflexivity | reflexivity].
Qed.

Lemma trace_emit_bind (B : Type) (e : Event) (f : unit -> M B) :
  trace (bind (emit e) f) = e :: trace (f tt).
Proof. unfold emit, bind. now destruct (f tt). Qed.

Lemma outcome_when (b : bool) (e : Event) : outcome (when b (emit e)) = Ok tt.
Proof. now destruct b. Qed.

Lemma trace_when (b : bool) (e : Event) :
  trace (when b (emit e)) = if b then [e] else [].
Proof. now destruct b. Qed.

(** ** Comparisons of doubles *)

Lemma SFcompare_antisym (x y : number) (c : comparison) :
  SFcompare x y = Some c -> SFcompare y x = Some (CompOpp c).
Proof.
  destruct x as [sx | sx | | sx mx ex], y as [sy | sy | | sy my ey]; simpl;
    try discriminate;
    try (destruct sx; intros [= <-]; reflexivity);
    try (destruct sy; intros [= <-]; reflexivity);
    try (intros [= <-]; reflexivity).
  - destruct sx, sy; intros [= <-]; reflexivity.
  - rewrite (Z.compare_antisym ex ey).
    pose proof (Pos.compare_cont_antisym mx my Eq) as H; simpl in H.
    destruct sx, sy; intros [= <-]; try reflexivity;
      destruct (ex ?= ey)%Z; simpl; try reflexivity;
      rewrite <- H; now rewrite ?CompOpp_involutive.
Qed.

Lemma le_not_gt (x y : number) : le x y = true -> gt x y = false.
Proof.
  unfold le, gt, SFleb, SFltb.
  destruct (SFcompare x y) as [c |] eqn:E; [| discriminate].
  rewrite (SFcompare_antisym _ _ E).
  now destruct c.
Qed.

Lemma le_not_lt_flip (x y : number) : le x y = true -> lt y x = false.
Proof. exact (@le_not_gt x y). Qed.

Lemma eq_ge (x y : number) : eq x y = true -> ge x y = true.
Proof.
  unfold eq, ge, SFeqb, SFleb.
  destruct (SFcompare x y) as [c |] eqn:E; [| discriminate].
  rewrite (SFcompare_antisym _ _ E).
  now destruct c.
Qed.

Lemma SFeqb_finite_eq (s : bool) (m : positive) (e : Z) (x : number) :
  SFeqb (S754_finite s m e) x = true -> x = S754_finite s m e.
Proof.
  unfold SFeqb.
  destruct x as [sx | sx | | sx mx ex]; simpl.
  - now destruct s.
  - now destruct sx.
  - discriminate.
  - destruct s, sx; try discriminate;
      destruct (e ?= ex)%Z eqn:E; try discriminate;
      apply Z.compare_eq in E; subst ex;
      destruct (Pos.compare_cont Eq m mx) eqn:E'; try discriminate;
      apply Pos.compare_eq in E'; now subst.
Qed.

Lemma includes_recommended (x : number) :
  includes RECOMMENDED_FRAME_SAMPLES x = true -> In x RECOMMENDED_FRAME_SAMPLES.
Proof.
  unfold RECOMMENDED_FRAME_SAMPLES; simpl.
  rewrite !orb_true_iff.
  intros [H | [H | [H | H]]]; [| | | discriminate];
    [left | right; left | right; right; left];
    symmetry; revert H; vm_compute of_Z; apply SFeqb_finite_eq.
Qed.

(** ** What [validateOptions] logs *)

Lemma validateOptions_outcome (o : VadOptions) : outcome (validateOptions o) = Ok tt.
Proof.
  unfold validateOptions, log.warn, log.error.
  repeat (rewrite outcome_bind, outcome_when).
  apply outcome_when.
Qed.

Lemma validateOptions_trace (o : VadOptions) :
  trace (validateOptions o) =
  (if unusual_frame_size o then [Log Warn msg_frame_size] else []) ++
  (if positive_reported o then [Log Error msg_positive] else []) ++
  (if negative_reported o then [Log Error msg_negative] else []) ++
  (if pad_reported o then [Log Error msg_pad] else []) ++
  (if redemption_reported o then [Log Error msg_pad] else []).
Proof.
  unfold validateOptions, log.warn, log.error.
  repeat (rewrite trace_bind, outcome_when, trace_when).
  now rewrite trace_when.
Qed.

Lemma validateOptions_only_logs (o : VadOptions) :
  forallb is_log (trace (validateOptions o)) = true.
Proof.
  rewrite validateOptions_trace.
  now destruct (unusual_frame_size o), (positive_reported o), (negative_reported o),
    (pad_reported o), (redemption_reported o).
Qed.

Lemma negative_logged_iff (o : VadOptions) :
  In (Log Error msg_negative) (trace (validateOptions o)) <-> negative_reported o = true.
Proof.
  rewrite validateOptions_trace.
  destruct (unusual_frame_size o), (positive_reported o), (negative_reported o),
    (pad_reported o), (redemption_reported o); simpl; split;
    try reflexivity; try discriminate; intuition (try discriminate; auto).
Qed.

Lemma positive_logged_iff (o : VadOptions) :
  In (Log Error msg_positive) (trace (validateOptions o)) <-> positive_reported o = true.
Proof.
  rewrite validateOptions_trace.
  destruct (unusual_frame_size o), (positive_reported o), (negative_reported o),
    (pad_reported o), (redemption_reported o); simpl; split;
    try reflexivity; try discriminate; intuition (try discriminate; auto).
Qed.

Lemma frame_size_logged_iff (o : VadOptions) :
  In (Log Warn msg_frame_size) (trace (validateOptions o)) <-> unusual_frame_size o = true.
Proof.
  rewrite validateOptions_trace.
  destruct (unusual_frame_size o), (positive_reported o), (negative_reported o),
    (pad_reported o), (redemption_reported o); simpl; split;
    try reflexivity; try discriminate; intuition (try discriminate; auto).
Qed.

Example validateOptions_examples :
  trace (validateOptions defaultVadOptions) = [] /\
  trace (validateOptions all_negative)
  = [Log Warn msg_frame_size; Log Error msg_positive; Log Error msg_negative;
     Log Error msg_pad; Log Error msg_pad].
Proof. split; vm_compute; reflexivity. Qed.

Lemma spread_no_options : spread defaultVadOptions no_options = defaultVadOptions.
Proof. reflexivity. Qed.

(** ** Construction *)

Lemma MicVAD_constructor_outcome (FP : Type) (o : VadOptions) :
  outcome (@MicVAD.constructor FP o) = Ok (fresh_MicVAD FP o).
Proof.
  unfold MicVAD.constructor.
  now rewrite outcome_bind, validateOptions_outcome.
Qed.

Lemma MicVAD_constructor_trace (FP : Type) (o : VadOptions) :
  trace (@MicVAD.constructor FP o) = trace (validateOptions o).
Proof.
  unfold MicVAD.constructor.
  rewrite trace_bind, validateOptions_outcome; simpl.
  apply app_nil_r.
Qed.

Lemma AudioNodeVAD_constructor_outcome (FP : Type) (o : VadOptions) :
  outcome (@AudioNodeVAD.constructor FP o) = Ok (fresh_AudioNodeVAD FP o).
Proof.
  unfold AudioNodeVAD.constructor.
  now rewrite outcome_bind, validateOptions_outcome.
Qed.

Lemma AudioNodeVAD_constructor_trace (FP : Type) (o : VadOptions) :
  trace (@AudioNodeVAD.constructor FP o) = trace (validateOptions o).
Proof.
  unfold AudioNodeVAD.constructor.
  rewrite trace_bind, validateOptions_outcome; simpl.
  apply app_nil_r.
Qed.

(** C1, as stated, fails: with the negative threshold (0.6) above the
    positive one (0.5), [new MicVAD(options)] throws nothing and returns the
    instance. *)
Lemma inverted_thresholds_constructed :
  gt inverted_thresholds.(negativeSpeechThreshold)
     inverted_thresholds.(positiveSpeechThreshold) = true /\
  outcome (@MicVAD.constructor unit inverted_thresholds)
  = Ok (fresh_MicVAD unit inverted_thresholds).
Proof. split; vm_compute; reflexivity. Qed.

(** C1, amended: for every configuration with the positive threshold below
    0, the negative threshold below 0 or above the positive one, or
    [preSpeechPadFrames] or [redemptionFrames] below 0, construction logs an
    error at once and then succeeds: nothing is thrown and the instance holds
    the configuration as given. *)
Theorem construction_logs_and_succeeds (FP : Type) (o : VadOptions) :
  lt o.(positiveSpeechThreshold) (of_Z 0) = true \/
  lt o.(negativeSpeechThreshold) (of_Z 0) = true \/
  gt o.(negativeSpeechThreshold) o.(positiveSpeechThreshold) = true \/
  lt o.(preSpeechPadFrames) (of_Z 0) = true \/
  lt o.(redemptionFrames) (of_Z 0) = true ->
  (exists msg, In (Log Error msg) (trace (@MicVAD.constructor FP o))) /\
  forallb is_log (trace (@MicVAD.constructor FP o)) = true /\
  outcome (@MicVAD.constructor FP o) = Ok (fresh_MicVAD FP o).
Proof.
  intros H.
  rewrite MicVAD_constructor_trace, MicVAD_constructor_outcome.
  split; [| split; [apply validateOptions_only_logs | reflexivity]].
  rewrite validateOptions_trace.
  assert (C : positive_reported o = true \/ negative_reported o = true \/
              pad_reported o = true \/ redemption_reported o = true).
  { unfold positive_reported, negative_reported, pad_reported, redemption_reported.
    rewrite !orb_true_iff. tauto. }
  destruct C as [C | [C | [C | C]]]; rewrite C;
    [exists msg_positive | exists msg_negative | exists msg_pad | exists msg_pad];
    rewrite !in_app_iff; simpl; tauto.
Qed.

Lemma construction_logs_and_succeeds_witness :
  (exists msg, In (Log Error msg) (trace (@MicVAD.constructor unit inverted_thresholds))) /\
  forallb is_log (trace (@MicVAD.constructor unit inverted_thresholds)) = true /\
  outcome (@MicVAD.constructor unit inverted_thresholds)
  = Ok (fresh_MicVAD unit inverted_thresholds).
Proof.
  apply (@construction_logs_and_succeeds unit inverted_thresholds).
  right; right; left. vm_compute. reflexivity.
Defined.

(** C2: the positive threshold is 2 and nothing is logged.  The test of
    [validateOptions] whose message names [postiveSpeechThreshold] compares
    the negative threshold with 1. *)
Theorem positive_above_one_unreported :
  gt positive_above_one.(positiveSpeechThreshold) (of_Z 1) = true /\
  trace (validateOptions positive_above_one) = [].
Proof. split; vm_compute; reflexivity. Qed.

(** C3, as stated, fails: with [minSpeechFrames] at 0 and the other options
    at their defaults, validation reports nothing. *)
Lemma no_minimum_unreported :
  lt no_minimum.(minSpeechFrames) (of_Z 1) = true /\
  trace (validateOptions no_minimum) = [].
Proof. split; vm_compute; reflexivity. Qed.

(** C3, amended: validation does not look at [minSpeechFrames]; whatever its
    value, the reports are those of the rest of the configuration. *)
Theorem validateOptions_ignores_minSpeechFrames (o : VadOptions) (n : number) :
  validateOptions (with_minSpeechFrames n o) = validateOptions o /\
  trace (validateOptions (with_minSpeechFrames n defaultVadOptions)) = [].
Proof. split; [reflexivity | vm_compute; reflexivity]. Qed.

(** C4: a negative threshold below 0 or above the positive threshold is
    reported with the message about [negativeSpeechThreshold]; when
    [0 <= negative <= positive] that message is not logged. *)
Theorem negativeSpeechThreshold_validation (o : VadOptions) :
  (lt o.(negativeSpeechThreshold) (of_Z 0) = true \/
   gt o.(negativeSpeechThreshold) o.(positiveSpeechThreshold) = true ->
   In (Log Error msg_negative) (trace (validateOptions o))) /\
  (le (of_Z 0) o.(negativeSpeechThreshold) = true ->
   le o.(negativeSpeechThreshold) o.(positiveSpeechThreshold) = true ->
   ~ In (Log Error msg_negative) (trace (validateOptions o))).
Proof.
  rewrite negative_logged_iff. unfold negative_reported.
  split.
  - rewrite orb_true_iff. tauto.
  - intros H0 H1.
    rewrite (le_not_lt_flip _ _ H0), (le_not_gt _ _ H1). discriminate.
Qed.

Lemma negativeSpeechThreshold_validation_witness :
  In (Log Error msg_negative) (trace (validateOptions inverted_thresholds)) /\
  ~ In (Log Error msg_negative) (trace (validateOptions defaultVadOptions)).
Proof.
  split.
  - apply (proj1 (negativeSpeechThreshold_validation inverted_thresholds)).
    right. vm_compute. reflexivity.
  - apply (proj2 (negativeSpeechThreshold_validation defaultVadOptions));
      vm_compute; reflexivity.
Defined.

(** C5: a frame length other than 512, 1024 and 1536 is warned about, and
    both constructors still return their instance. *)
Theorem unusual_frame_size_warns (FP : Type) (o : VadOptions) :
  ~ In o.(frameSamples) RECOMMENDED_FRAME_SAMPLES ->
  In (Log Warn msg_frame_size) (trace (@MicVAD.constructor FP o)) /\
  outcome (@MicVAD.constructor FP o) = Ok (fresh_MicVAD FP o) /\
  In (Log Warn msg_frame_size) (trace (@AudioNodeVAD.constructor FP o)) /\
  outcome (@AudioNodeVAD.constructor FP o) = Ok (fresh_AudioNodeVAD FP o).
Proof.
  intros H.
  rewrite MicVAD_constructor_trace, MicVAD_constructor_outcome,
    AudioNodeVAD_constructor_trace, AudioNodeVAD_constructor_outcome.
  assert (W : In (Log Warn msg_frame_size) (trace (validateOptions o))).
  { apply frame_size_logged_iff. unfold unusual_frame_size.
    destruct (includes RECOMMENDED_FRAME_SAMPLES (frameSamples o)) eqn:E; [| reflexivity].
    now apply includes_recommended in E. }
  auto.
Qed.

Lemma unusual_frame_size_warns_witness :
  In (Log Warn msg_frame_size) (trace (@MicVAD.constructor unit long_frames)) /\
  outcome (@MicVAD.constructor unit long_frames) = Ok (fresh_MicVAD unit long_frames) /\
  In (Log Warn msg_frame_size) (trace (@AudioNodeVAD.constructor unit long_frames)) /\
  outcome (@AudioNodeVAD.constructor unit long_frames)
  = Ok (fresh_AudioNodeVAD unit long_frames).
Proof.
  apply (@unusual_frame_size_warns unit long_frames).
  vm_compute. intros [H | [H | [H | []]]]; discriminate H.
Defined.

(** ** Typed arrays *)

(** [Float32Array] on the buffers of the examples. *)
Example Float32Array_examples :
  Float32Array quiet = Ok quiet_frame /\
  Float32Array loud = Ok loud_frame /\
  Float32Array (quiet ++ loud) = Ok (quiet_frame ++ loud_frame) /\
  Float32Array three_bytes = Throw (RangeError msg_byte_length) /\
  Float32Array [] = Ok [].
Proof. repeat split; vm_compute; reflexivity. Qed.

(** ** Order of validation and stream processing *)

Lemma prefix_of_logs (pre rest t1 t2 : list Event) (e : Event) :
  forallb is_log pre = true -> is_log e = false ->
  pre ++ rest = t1 ++ e :: t2 -> exists t1', t1 = pre ++ t1'.
Proof.
  intros Hpre He Heq.
  apply app_eq_app in Heq.
  destruct Heq as [l [[H1 H2] | [H1 H2]]].
  - destruct l as [| x l].
    + exists []. now rewrite app_nil_r in *.
    + injection H2 as -> _.
      rewrite H1, forallb_app in Hpre. simpl in Hpre.
      rewrite He in Hpre. simpl in Hpre.
      now rewrite andb_false_r in Hpre.
  - now exists l.
Qed.

(** [AudioNodeVAD.new] merges the options it gets from [MicVAD.init] with
    the defaults and finds them unchanged. *)
Lemma spread_all_present (d o : VadOptions) :
  spread d (MicVAD.all_present o) = o.
Proof. now destruct o. Qed.

Lemma pad_logged_iff (o : VadOptions) :
  In (Log Error msg_pad) (trace (validateOptions o))
  <-> pad_reported o = true \/ redemption_reported o = true.
Proof.
  rewrite validateOptions_trace.
  destruct (unusual_frame_size o), (positive_reported o), (negative_reported o),
    (pad_reported o), (redemption_reported o); simpl; split;
    try reflexivity; try discriminate; intuition (try discriminate; auto).
Qed.

Lemma not_recommended_unusual (o : VadOptions) :
  ~ In o.(frameSamples) RECOMMENDED_FRAME_SAMPLES -> unusual_frame_size o = true.
Proof.
  intros H. unfold unusual_frame_size.
  destruct (includes RECOMMENDED_FRAME_SAMPLES (frameSamples o)) eqn:E; [| reflexivity].
  now apply includes_recommended in E.
Qed.

Section Order.

Context {FP : Type} {fpi : FrameProcessorI FP}.
Variable user_code : nat -> Arg -> @AudioNodeVAD.t FP -> @AudioNodeVAD.t FP * option Exn.

Lemma MicVAD_init_trace (env : Platform) (vad : MicVAD.t) :
  exists rest, trace (MicVAD.init env vad) = GetUserMedia :: rest.
Proof.
  unfold MicVAD.init. rewrite trace_emit_bind. eexists; reflexivity.
Qed.

Lemma MicVAD_new_trace (env : Platform) (options : PartialVadOptions) :
  exists rest,
    trace (MicVAD.new env options)
    = trace (validateOptions (spread defaultVadOptions options)) ++ GetUserMedia :: rest.
Proof.
  unfold MicVAD.new.
  rewrite trace_bind, MicVAD_constructor_outcome, MicVAD_constructor_trace.
  destruct (MicVAD_init_trace env (fresh_MicVAD FP (spread defaultVadOptions options)))
    as [rest ->].
  now exists rest.
Qed.

(** The trace of [MicVAD.new], and of a whole session, begins with the
    reports of [validateOptions] on the merged options; these are log entries
    only, and the acquisition of the stream follows them. *)
Lemma session_begins_with_reports (env : Platform) (options : PartialVadOptions)
    (evs : list MessageEvent) :
  let reports := trace (validateOptions (spread defaultVadOptions options)) in
  forallb is_log reports = true /\
  (exists rest, trace (MicVAD.new env options) = reports ++ GetUserMedia :: rest) /\
  (exists rest,
     trace (MicVAD.session user_code env options evs) = reports ++ GetUserMedia :: rest) /\
  (forall t1 e t2,
     trace (MicVAD.session user_code env options evs) = t1 ++ e :: t2 ->
     stream_event e = true -> exists t1', t1 = reports ++ t1').
Proof.
  intros reports.
  assert (L : forallb is_log reports = true) by apply validateOptions_only_logs.
  assert (S : exists rest,
             trace (MicVAD.session user_code env options evs)
             = reports ++ GetUserMedia :: rest).
  { unfold MicVAD.session. rewrite trace_bind.
    destruct (MicVAD_new_trace env options) as [rest ->].
    fold reports. rewrite <- app_assoc, <- app_comm_cons.
    eexists; reflexivity. }
  repeat split; trivial.
  - apply MicVAD_new_trace.
  - intros t1 e t2 Heq He.
    destruct S as [rest S]. rewrite S in Heq.
    eapply prefix_of_logs; [exact L | | exact Heq].
    now destruct e.
Qed.

(** C6, amended: the constructor of [MicVAD] validates the merged options
    before [init] runs.  The trace of [MicVAD.new], and of a whole session,
    begins with the reports of [validateOptions], which are log entries only;
    the acquisition of the stream follows them, and so whatever event
    acquires the stream, installs the frame handler or processes a frame
    comes after all of them.  Among these reports are the warning for a
    frame length outside the recommended ones and an error for each of: a
    positive threshold below 0, a negative threshold below 0 or above the
    positive one, [preSpeechPadFrames] below 0, [redemptionFrames] below
    0. *)
Theorem violations_reported_before_stream (env : Platform)
    (options : PartialVadOptions) (evs : list MessageEvent) :
  let o := spread defaultVadOptions options in
  exists reports,
    forallb is_log reports = true /\
    (exists rest, trace (MicVAD.new env options) = reports ++ GetUserMedia :: rest) /\
    (exists rest,
       trace (MicVAD.session user_code env options evs) = reports ++ GetUserMedia :: rest) /\
    (forall t1 e t2,
       trace (MicVAD.session user_code env options evs) = t1 ++ e :: t2 ->
       stream_event e = true -> exists t1', t1 = reports ++ t1') /\
    (~ In o.(frameSamples) RECOMMENDED_FRAME_SAMPLES ->
     In (Log Warn msg_frame_size) reports) /\
    (lt o.(positiveSpeechThreshold) (of_Z 0) = true ->
     In (Log Error msg_positive) reports) /\
    (lt o.(negativeSpeechThreshold) (of_Z 0) = true \/
     gt o.(negativeSpeechThreshold) o.(positiveSpeechThreshold) = true ->
     In (Log Error msg_negative) reports) /\
    (lt o.(preSpeechPadFrames) (of_Z 0) = true \/
     lt o.(redemptionFrames) (of_Z 0) = true ->
     In (Log Error msg_pad) reports).
Proof.
  intros o. exists (trace (validateOptions o)).
  destruct (session_begins_with_reports env options evs) as [L [N [S P]]].
  repeat (split; [assumption |]).
  split; [| split; [| split]].
  - intros H. apply frame_size_logged_iff. now apply not_recommended_unusual.
  - intros H. apply positive_logged_iff. unfold positive_reported.
    now rewrite H.
  - intros H. apply negative_logged_iff. unfold negative_reported.
    rewrite orb_true_iff. exact H.
  - intros H. apply pad_logged_iff. exact H.
Qed.

End Order.

(** A session on the default options: one quiet frame, a loud one, two quiet
    ones.  The stream is acquired first, the handler installed after the
    frame processor is built, and each frame is processed after that; the
    segment starts at the second frame and ends at the fourth. *)
Example session_trace :
  trace (MicVAD.session idle_user all_ok no_options
           (map AudioFrame [quiet; loud; quiet; quiet]))
  = [GetUserMedia; SetTrackEnabled false; NewAudioContext;
     NewMediaStreamAudioSourceNode; AddModule "vad.worklet.js";
     NewAudioWorkletNode "vad-helper-worklet" (of_Z 1536);
     SileroNew; NewFrameProcessor; SetOnMessage; Connect;
     Log Debug "starting vad"; FrameProcessorResume; SetTrackEnabled true;
     FrameProcessorProcess quiet_frame;
     Called OnFrameProcessed Noop false;
     FrameProcessorProcess loud_frame;
     Called OnFrameProcessed Noop false;
     Called OnSpeechStart DefaultOnSpeechStart true;
     Log Debug "Detected speech start";
     FrameProcessorProcess quiet_frame;
     Called OnFrameProcessed Noop true;
     FrameProcessorProcess quiet_frame;
     Called OnFrameProcessed Noop true;
     Called OnSpeechEnd DefaultOnSpeechEnd false;
     Log Debug "Detected speech end"].
Proof. vm_compute. reflexivity. Qed.

(** With the thresholds inverted the error is logged by the constructor of
    [MicVAD] before the stream is acquired, and once more by the constructor
    of [AudioNodeVAD]. *)
Example inverted_thresholds_trace :
  trace (@MicVAD.new ExampleProcessor exampleProcessor all_ok
           (MicVAD.all_present inverted_thresholds))
  = [Log Error msg_negative;
     GetUserMedia; SetTrackEnabled false; NewAudioContext;
     NewMediaStreamAudioSourceNode;
     Log Error msg_negative;
     AddModule "vad.worklet.js";
     NewAudioWorkletNode "vad-helper-worklet" (of_Z 1536);
     SileroNew; NewFrameProcessor; SetOnMessage; Connect].
Proof. vm_compute. reflexivity. Qed.

(** C6, as stated, fails: with [minSpeechFrames] at 0, below the least value
    the specification allows, and the other options at their defaults, a
    session acquires the stream and processes its frames, and no warning or
    error is logged at any time: the violation is reported neither before
    the first frame nor after it. *)
Lemma minimum_violation_processed_unreported :
  lt no_minimum.(minSpeechFrames) (of_Z 1) = true /\
  processed
    (trace (MicVAD.session idle_user all_ok (MicVAD.all_present no_minimum)
              (map AudioFrame [quiet; loud; quiet; quiet])))
  = [quiet_frame; loud_frame; quiet_frame; quiet_frame] /\
  no_report
    (trace (MicVAD.session idle_user all_ok (MicVAD.all_present no_minimum)
              (map AudioFrame [quiet; loud; quiet; quiet]))) = true.
Proof. repeat split; vm_compute; reflexivity. Qed.

(** ** The flags of [AudioNodeVAD] *)


Lemma outcome_bind_Ok (A B : Type) (m : M A) (f : A -> M B) (b : B) :
  outcome (bind m f) = Ok b ->
  exists a, outcome m = Ok a /\ outcome (f a) = Ok b.
Proof.
  rewrite outcome_bind. destruct (outcome m) as [a | e]; [| discriminate].
  intros H. now exists a.
Qed.


Lemma leaves_keep (A : Type) (a : A) (m : M A) :
  leaves (keep a m) = match outcome m with Ok a' => a' | Throw _ => a end.
Proof. now destruct m as [t [a' | e]]. Qed.

Lemma trace_after (A : Type) (t : list Event) (k : Kept A) :
  trace (after t k) = t ++ trace k.
Proof. reflexivity. Qed.

Lemma leaves_after (A : Type) (t : list Event) (k : Kept A) :
  leaves (after t k) = leaves k.
Proof. reflexivity. Qed.

Lemma throws_after (A : Type) (t : list Event) (k : Kept A) :
  throws (after t k) = throws k.
Proof. reflexivity. Qed.


Section Flags.

Context {FP : Type} {fpi : FrameProcessorI FP}.
Variable user_code : nat -> Arg -> @AudioNodeVAD.t FP -> @AudioNodeVAD.t FP * option Exn.









(** *** [listening] *)

Hypothesis user_keeps_listening :
  forall h arg vad,
    AudioNodeVAD.listening (fst (user_code h arg vad)) = AudioNodeVAD.listening vad.

Lemma invoke_listening (role : Role) (cb : Callback) (arg : Arg) (vad : @AudioNodeVAD.t FP) :
  AudioNodeVAD.listening (leaves (AudioNodeVAD.invoke user_code role cb arg vad))
  = AudioNodeVAD.listening vad.
Proof.
  unfold AudioNodeVAD.invoke.
  destruct cb; try reflexivity. apply user_keeps_listening.
Qed.

Lemma run_handler_listening (c : Call) (vad : @AudioNodeVAD.t FP) :
  AudioNodeVAD.listening (leaves (AudioNodeVAD.run_handler user_code c vad))
  = AudioNodeVAD.listening vad.
Proof.
  unfold AudioNodeVAD.run_handler, AudioNodeVAD.signalSpeechStart,
    AudioNodeVAD.signalSpeechEnd.
  destruct (fst c); now rewrite invoke_listening.
Qed.

Lemma run_handlers_listening (cs : list Call) (vad : @AudioNodeVAD.t FP) :
  AudioNodeVAD.listening (leaves (AudioNodeVAD.run_handlers user_code cs vad))
  = AudioNodeVAD.listening vad.
Proof.
  revert vad. induction cs as [| c cs IH]; intros vad; [reflexivity |].
  cbn [AudioNodeVAD.run_handlers].
  pose proof (run_handler_listening c vad) as H.
  destruct (AudioNodeVAD.run_handler user_code c vad) as [t [v [e |]]];
    cbn [and_then after leaves fst snd] in *; [exact H |].
  rewrite leaves_after, IH. exact H.
Qed.

Lemma run_op_listening (op : AudioNodeVAD.Op) (vad : @AudioNodeVAD.t FP) :
  AudioNodeVAD.listening vad = false ->
  AudioNodeVAD.listening (leaves (AudioNodeVAD.run_op user_code op vad)) = false.
Proof.
  intros L.
  destruct op as [| | node | ev]; cbn [AudioNodeVAD.run_op]; rewrite ?leaves_keep.
  - unfold AudioNodeVAD.pause. rewrite outcome_bind. simpl.
    now destruct (AudioNodeVAD.frameProcessor vad).
  - unfold AudioNodeVAD.start. rewrite outcome_bind. simpl.
    now destruct (AudioNodeVAD.frameProcessor vad).
  - unfold AudioNodeVAD.receive.
    destruct (AudioNodeVAD.entryNode vad); [| exact L].
    now destruct (connect_throws node).
  - unfold AudioNodeVAD.onmessage.
    destruct ev as [buffer |]; [| exact L].
    destruct (Float32Array buffer) as [frame | e]; [| exact L].
    destruct (AudioNodeVAD.frameProcessor vad) as [fp |]; [| exact L].
    destruct (fp_process fp frame) as [[fp' calls] |]; [| exact L].
    now rewrite leaves_after, run_handlers_listening.
Qed.

Lemma run_ops_listening (ops : list AudioNodeVAD.Op) (vad : @AudioNodeVAD.t FP) :
  AudioNodeVAD.listening vad = false ->
  AudioNodeVAD.listening (snd (AudioNodeVAD.run_ops user_code ops vad)) = false.
Proof.
  revert vad. induction ops as [| op ops IH]; intros vad L; simpl; [exact L |].
  pose proof (run_op_listening op vad L) as H.
  destruct (AudioNodeVAD.run_op user_code op vad) as [tr [vad' e]].
  cbn [leaves fst snd] in H.
  specialize (IH vad' H).
  now destruct (AudioNodeVAD.run_ops user_code ops vad').
Qed.

Lemma init_listening (env : Platform) (vad vad' : @AudioNodeVAD.t FP) :
  outcome (AudioNodeVAD.init env vad) = Ok vad' ->
  AudioNodeVAD.listening vad' = AudioNodeVAD.listening vad.
Proof.
  unfold AudioNodeVAD.init.
  repeat (rewrite outcome_bind; simpl).
  destruct (addModule_ok env); simpl; [| discriminate].
  repeat (rewrite outcome_bind; simpl).
  destruct (silero_ok env); simpl; [| discriminate].
  now intros [= <-].
Qed.

(** C10: [listening] is false in a constructed object and stays false:
    [init] does not touch it, [pause] writes false, [start] and the other
    operations do not write it.  The caller's own functions are assumed not
    to assign the field. *)
Theorem listening_never_true (o : VadOptions) (env : Platform)
    (ops : list AudioNodeVAD.Op) :
  exists vad,
    outcome (AudioNodeVAD.constructor o) = Ok vad /\
    AudioNodeVAD.listening vad = false /\
    AudioNodeVAD.listening (snd (AudioNodeVAD.run_ops user_code ops vad)) = false /\
    forall vad',
      outcome (AudioNodeVAD.init env vad) = Ok vad' ->
      AudioNodeVAD.listening vad' = false /\
      AudioNodeVAD.listening (snd (AudioNodeVAD.run_ops user_code ops vad')) = false.
Proof.
  exists (fresh_AudioNodeVAD FP o).
  split; [apply AudioNodeVAD_constructor_outcome |].
  split; [reflexivity |].
  split; [now apply run_ops_listening |].
  intros vad' H. apply init_listening in H.
  split; [exact H | now apply run_ops_listening].
Qed.

End Flags.

Lemma listening_never_true_witness :
  exists vad,
    outcome (AudioNodeVAD.constructor defaultVadOptions) = Ok vad /\
    AudioNodeVAD.listening vad = false /\
    AudioNodeVAD.listening
      (snd (AudioNodeVAD.run_ops idle_user
              [AudioNodeVAD.OpPause; AudioNodeVAD.OpStart] vad)) = false /\
    forall vad',
      outcome (AudioNodeVAD.init all_ok vad) = Ok vad' ->
      AudioNodeVAD.listening vad' = false /\
      AudioNodeVAD.listening
        (snd (AudioNodeVAD.run_ops idle_user
                [AudioNodeVAD.OpPause; AudioNodeVAD.OpStart] vad')) = false.
Proof.
  apply (@listening_never_true ExampleProcessor exampleProcessor idle_user).
  intros h arg vad. reflexivity.
Defined.

(** ** The thresholds of the decision engine *)

Section Engine.

Variable ModelState : Type.
Variable infer : ModelState -> Frame -> option (ModelState * SpeechProbabilities).
Variable resetState : ModelState -> ModelState.

(** C7: both thresholds are met by a score equal to them.  For an engine
    that is not paused and a frame the source scores: in [Idle], a score
    equal to [positiveSpeechThreshold] moves the engine to [Active] and
    signals the start; in [Active], a score equal to
    [negativeSpeechThreshold] sets the redemption counter to
    [redemptionFrames]. *)
Theorem thresholds_inclusive (fp : FrameProcessor.t ModelState) (frame : Frame)
    (m : ModelState) (probs : SpeechProbabilities) :
  FrameProcessor.paused fp = false ->
  infer (FrameProcessor.model fp) frame = Some (m, probs) ->
  (FrameProcessor.phase fp = FrameProcessor.Idle ->
   eq probs.(isSpeech) (FrameProcessor.options fp).(fp_positiveSpeechThreshold) = true ->
   exists fp' calls,
     FrameProcessor.process infer resetState fp frame = Some (fp', calls) /\
     FrameProcessor.phase fp' = FrameProcessor.Active /\
     In ((FrameProcessor.options fp).(fp_signalSpeechStart), NoArg) calls /\
     FrameProcessor.redemptionCounter fp' = (FrameProcessor.options fp).(fp_redemptionFrames)) /\
  (FrameProcessor.phase fp = FrameProcessor.Active ->
   eq probs.(isSpeech) (FrameProcessor.options fp).(fp_negativeSpeechThreshold) = true ->
   exists fp' calls,
     FrameProcessor.process infer resetState fp frame = Some (fp', calls) /\
     FrameProcessor.redemptionCounter fp' = (FrameProcessor.options fp).(fp_redemptionFrames)).
Proof.
  intros Hp Hi. unfold FrameProcessor.process. rewrite Hp, Hi.
  split; intros Hph Heq; rewrite Hph; apply eq_ge in Heq; rewrite Heq.
  - eexists; eexists. split; [reflexivity |]. simpl. auto.
  - destruct (eq _ _); eexists; eexists; split; reflexivity.
Qed.

End Engine.

Lemma thresholds_inclusive_witness :
  (exists fp' calls,
     FrameProcessor.process first_sample (fun m => m)
       (FrameProcessor.new tt default_fp_options) [decimal 5 10] = Some (fp', calls) /\
     FrameProcessor.phase fp' = FrameProcessor.Active /\
     In (SpeechStartClosure, NoArg) calls /\
     FrameProcessor.redemptionCounter fp' = of_Z 2) /\
  (exists fp' calls,
     FrameProcessor.process first_sample (fun m => m)
       mid_segment [defaultVadOptions.(negativeSpeechThreshold)] = Some (fp', calls) /\
     FrameProcessor.redemptionCounter fp' = of_Z 2).
Proof.
  split.
  - apply (proj1 (@thresholds_inclusive unit first_sample (fun m => m)
                    (FrameProcessor.new tt default_fp_options) [decimal 5 10] tt
                    {| notSpeech := of_Z 0; isSpeech := decimal 5 10 |}
                    eq_refl eq_refl)); reflexivity.
  - apply (proj2 (@thresholds_inclusive unit first_sample (fun m => m)
                    mid_segment [defaultVadOptions.(negativeSpeechThreshold)] tt
                    {| notSpeech := of_Z 0;
                       isSpeech := defaultVadOptions.(negativeSpeechThreshold) |}
                    eq_refl eq_refl)); reflexivity.
Defined.

(** The two scenarios of section 8 of the specification, on the engine as
    modelled: the onset is at the third frame, the segment ends at the
    seventh and delivers six frames, the one before the onset first; with
    two high frames and [minSpeechFrames] at 5 the candidate is a misfire. *)
Example scenario_segment :
  signals (FrameProcessor.feed first_sample (fun m => m)
             (FrameProcessor.new tt default_fp_options) scenario)
  = [(SpeechStartClosure, NoArg);
     (SpeechEndClosure, Audio (List.concat [low; high; high; high; low; low]))].
Proof. vm_compute. reflexivity. Qed.

Example scenario_misfire :
  signals (FrameProcessor.feed first_sample (fun m => m)
             (FrameProcessor.new tt (with_min (of_Z 5) default_fp_options))
             [low; low; high; high; low; low; low])
  = [(SpeechStartClosure, NoArg); (MisfireOption Noop, NoArg)] /\
  signals (FrameProcessor.feed first_sample (fun m => m)
             (FrameProcessor.new tt (with_min (of_Z 5) default_fp_options))
             scenario)
  = [(SpeechStartClosure, NoArg);
     (SpeechEndClosure, Audio (List.concat [low; high; high; high; low; low]))].
Proof. split; vm_compute; reflexivity. Qed.

(** ** [Math.ceil] and [minSamplesForTargetMS] *)

Lemma iter_xO_pow (k d : positive) :
  Zpos (Pos.iter xO k d) = (Zpos k * 2 ^ Zpos d)%Z.
Proof.
  induction d as [| d IH] using Pos.peano_ind.
  - simpl. lia.
  - rewrite Pos.iter_succ, Pos2Z.inj_succ, Z.pow_succ_r by lia.
    rewrite Pos2Z.inj_xO, IH. ring.
Qed.

Lemma F2Q_nonneg_exponent (s : bool) (m : positive) (e : Z) :
  (0 <= e)%Z -> (F2Q s m e == inject_Z (cond_Zopp s (Zpos m) * 2 ^ e))%Q.
Proof.
  intros He. unfold F2Q.
  rewrite inject_Z_mult, (@Zpower_Qpower 2 e He). reflexivity.
Qed.

Lemma F2Q_neg_exponent (s : bool) (m p : positive) :
  (F2Q s m (Zneg p) == cond_Zopp s (Zpos m) # (2 ^ p)%positive)%Q.
Proof.
  unfold F2Q.
  change (Zneg p) with (- Zpos p)%Z.
  rewrite Qpower_opp, <- (@Zpower_Qpower 2 (Zpos p)) by lia.
  rewrite <- Pos2Z.inj_pow.
  unfold Qeq, Qmult, Qinv, inject_Z; simpl. lia.
Qed.

Lemma value_of_pos (s : bool) (k : positive) :
  is_integer (of_pos s k) (cond_Zopp s (Zpos k)).
Proof.
  unfold is_integer, of_pos, shl_align.
  destruct (fexp prec emax (Zpos (digits2_pos k)) - 0)%Z as [| d | d] eqn:E.
  - eexists; split; [reflexivity |].
    rewrite F2Q_nonneg_exponent by lia. now rewrite Z.mul_1_r.
  - eexists; split; [reflexivity |].
    rewrite F2Q_nonneg_exponent by lia. now rewrite Z.mul_1_r.
  - eexists; split; [reflexivity |].
    rewrite Z.sub_0_r in E. rewrite E, F2Q_neg_exponent.
    assert (H : cond_Zopp s (Zpos (Pos.iter xO k d))
                = (cond_Zopp s (Zpos k) * Zpos (2 ^ d))%Z).
    { rewrite Pos2Z.inj_pow. unfold cond_Zopp. rewrite iter_xO_pow.
      destruct s; ring. }
    rewrite H. unfold Qeq, inject_Z; simpl. lia.
Qed.

Lemma ceil_div_spec (a b k : Z) :
  (0 < b)%Z ->
  (a <= ceil_div a b * b)%Z /\ ((a <= k * b)%Z -> (ceil_div a b <= k)%Z).
Proof.
  intros Hb. unfold ceil_div.
  pose proof (@Z.div_mod (- a) b ltac:(lia)) as H1.
  pose proof (@Z.mod_pos_bound (- a) b Hb) as H2.
  split; [nia | intros Hk; nia].
Qed.

Lemma ceilZ_neg_exponent (s : bool) (m p : positive) (k : Z) :
  let z := cond_Zopp s (Zpos m) in
  let n := ceilZ s m (Zneg p) in
  (z <= n * Zpos (2 ^ p))%Z /\
  ((z <= k * Zpos (2 ^ p))%Z -> (n <= k)%Z).
Proof.
  intros z n. unfold n, ceilZ. fold z.
  rewrite Z.pow_pos_fold, <- Pos2Z.inj_pow.
  apply ceil_div_spec. lia.
Qed.

(** [Math.ceil] of a finite double is the least integer not below it. *)
Lemma Math_ceil_spec (x : number) (q : Q) :
  value x = Some q ->
  exists n, is_integer (Math_ceil x) n /\ ceiling_of q n.
Proof.
  unfold ceiling_of.
  destruct x as [s | s | | s m e]; cbn [value]; try discriminate.
  - intros [= <-]. exists 0%Z. split; [| split].
    + exists 0%Q. split; reflexivity.
    + apply Qle_refl.
    + intros k H. change 0%Q with (inject_Z 0) in H. now rewrite <- Zle_Qle in H.
  - intros [= <-].
    destruct e as [| e | p].
    + exists (ceilZ s m 0). split; [| split].
      * eexists; split; [reflexivity |]. now apply F2Q_nonneg_exponent.
      * rewrite F2Q_nonneg_exponent by lia. apply Qle_refl.
      * intros k. rewrite F2Q_nonneg_exponent by lia. now rewrite <- Zle_Qle.
    + exists (ceilZ s m (Zpos e)). split; [| split].
      * eexists; split; [reflexivity |]. now apply F2Q_nonneg_exponent.
      * rewrite F2Q_nonneg_exponent by lia. apply Qle_refl.
      * intros k. rewrite F2Q_nonneg_exponent by lia. now rewrite <- Zle_Qle.
    + exists (ceilZ s m (Zneg p)). split; [| split].
      * cbn [Math_ceil]. destruct (ceilZ s m (Zneg p)) as [| c | c].
        -- exists 0%Q. split; reflexivity.
        -- apply (@value_of_pos false c).
        -- apply (@value_of_pos true c).
      * rewrite F2Q_neg_exponent.
        unfold Qle, inject_Z; cbn [Qnum Qden].
        pose proof (@ceilZ_neg_exponent s m p 0) as [H _]. lia.
      * intros k. rewrite F2Q_neg_exponent.
        unfold Qle, inject_Z; cbn [Qnum Qden]. intros Hk.
        apply (@ceilZ_neg_exponent s m p k). lia.
Qed.

Lemma positive_value (x : number) (q : Q) :
  gt x (of_Z 0) = true -> value x = Some q -> (0 < q)%Q.
Proof.
  unfold gt, SFltb. change (of_Z 0) with (S754_zero false).
  destruct x as [s | s | | s m e]; simpl; try discriminate.
  destruct s; [discriminate |].
  intros _ [= <-]. unfold F2Q. simpl cond_Zopp.
  apply Qmult_lt_0_compat; [reflexivity | now apply Qpower_0_lt].
Qed.

Example Math_ceil_examples :
  Math_ceil (decimal 35 100) = of_Z 1 /\
  Math_ceil (decimal (-1) 3) = S754_zero true /\
  Math_ceil (decimal (-7) 3) = of_Z (-2) /\
  Math_ceil (of_Z 5) = of_Z 5 /\
  Math_ceil S754_nan = S754_nan.
Proof. repeat split; vm_compute; reflexivity. Qed.

(** 100 ms at 16 kHz are 1600 samples: two frames of 1536; 96 ms are one
    frame exactly. *)
Example minSamplesForTargetMS_examples :
  minSamplesForTargetMS (of_Z 100) (of_Z 1536) default_sr = of_Z 2 /\
  minSamplesForTargetMS (of_Z 96) (of_Z 1536) default_sr = of_Z 1 /\
  minSamplesForTargetMS (of_Z 0) (of_Z 1536) default_sr = of_Z 0.
Proof. repeat split; vm_compute; reflexivity. Qed.

(** Whatever the rounding of the product and the divisions, the result is
    the least integer not below the quotient as computed. *)
Lemma minSamplesForTargetMS_ceiling (t fs sr : number) (q : Q) :
  value (quotient t fs sr) = Some q ->
  exists n, is_integer (minSamplesForTargetMS t fs sr) n /\ ceiling_of q n.
Proof. apply Math_ceil_spec. Qed.

(** C8, as stated, fails: for 125842813622211 ms, frames of one sample and
    a rate of 1000 the product is rounded up, the quotient exceeds the
    duration by 1/64 and the result is 125842813622212, although
    125842813622211 frames cover the duration. *)
Lemma long_duration_not_least :
  valid long_duration = true /\
  ge long_duration (of_Z 0) = true /\
  gt (of_Z 1) (of_Z 0) = true /\
  gt (of_Z 1000) (of_Z 0) = true /\
  minSamplesForTargetMS long_duration (of_Z 1) (of_Z 1000) = of_Z 125842813622212 /\
  ~ returns_least_cover long_duration (of_Z 1) (of_Z 1000).
Proof.
  repeat split; try (vm_compute; reflexivity).
  intros [n [qt [qfs [qsr [Ht [Hfs [Hsr [[q [Hq Hn]] [_ Hl]]]]]]]]].
  vm_compute in Ht, Hfs, Hsr, Hq.
  injection Ht as <-. injection Hfs as <-. injection Hsr as <-. injection Hq as <-.
  assert (n = 125842813622212%Z) as ->.
  { unfold Qeq in Hn. cbn [Qnum Qden inject_Z] in Hn. lia. }
  specialize (Hl 125842813622211%Z).
  assert (C : covers 125842813622211
                (125842813622211 # 1) (1 # 1) (1000 # 1)).
  { unfold covers, Qle. vm_compute. discriminate. }
  apply Hl in C. lia.
Qed.

(** C8, amended: for a duration of at least 0, a positive frame length and a
    positive rate whose quotient [(targetDuration * sr) / 1000 / frameSamples],
    computed in double precision, is finite, the result is the least integer
    not below that quotient; when the computed quotient is the exact one,
    the result is the least integer [n] with
    [n * frameSamples >= targetDuration * sr / 1000]. *)
Theorem minSamplesForTargetMS_least (t fs sr : number) :
  ge t (of_Z 0) = true -> gt fs (of_Z 0) = true -> gt sr (of_Z 0) = true ->
  isFinite (quotient t fs sr) = true ->
  returns_ceiling t fs sr /\
  (exact_quotient t fs sr = true -> returns_least_cover t fs sr).
Proof.
  intros _ Hfs _ Hfin. unfold returns_ceiling, exact_quotient.
  destruct (value (quotient t fs sr)) as [q |] eqn:Hq;
    [| now destruct (quotient t fs sr)].
  destruct (@minSamplesForTargetMS_ceiling t fs sr q Hq) as [n [Hn [Hle Hleast]]].
  split; [exists n, q; repeat split; trivial |].
  destruct (value t) as [qt |] eqn:Ht; [| discriminate].
  destruct (value fs) as [qfs |] eqn:Hf; [| discriminate].
  destruct (value sr) as [qsr |] eqn:Hs; [| discriminate].
  rewrite Qeq_bool_iff. intros E.
  pose proof (@positive_value fs qfs Hfs Hf) as Hpos.
  assert (Hnz : ~ (qfs == 0)%Q).
  { intros Z. rewrite Z in Hpos. discriminate. }
  exists n, qt, qfs, qsr. repeat split; trivial.
  - unfold covers.
    rewrite <- (@Qmult_div_r (qt * qsr / 1000) qfs Hnz), <- E, Qmult_comm.
    apply Qmult_le_compat_r; [exact Hle | now apply Qlt_le_weak].
  - intros k Hk. apply Hleast. rewrite E.
    now apply Qle_shift_div_r.
Qed.

Lemma minSamplesForTargetMS_least_witness :
  returns_ceiling (of_Z 30) (of_Z 1536) default_sr /\
  returns_least_cover (of_Z 30) (of_Z 1536) default_sr.
Proof.
  destruct (@minSamplesForTargetMS_least (of_Z 30) (of_Z 1536) default_sr)
    as [H1 H2]; try (vm_compute; reflexivity).
  split; [exact H1 | apply H2; vm_compute; reflexivity].
Defined.

(** *** Whole milliseconds at the default rate *)

Lemma all_from_spec (P : Z -> bool) (fuel : nat) (T x : Z) :
  all_from fuel T P = true -> (T <= x < T + Z.of_nat fuel)%Z -> P x = true.
Proof.
  revert T. induction fuel as [| fuel IH]; intros T; simpl all_from.
  - lia.
  - rewrite andb_true_iff. intros [H0 H1] Hx.
    destruct (Z.eq_dec x T) as [-> | Hne]; [exact H0 |].
    apply (IH (T + 1)%Z H1). lia.
Qed.

Lemma agrees_least_cover (T F S : Z) :
  (0 < F)%Z -> agrees T F S = true ->
  returns_least_cover (of_Z T) (of_Z F) (of_Z S).
Proof.
  intros HF. unfold agrees.
  destruct (value (of_Z T)) as [qt |] eqn:Et; [| discriminate].
  destruct (value (of_Z F)) as [qf |] eqn:Ef; [| discriminate].
  destruct (value (of_Z S)) as [qs |] eqn:Es; [| discriminate].
  destruct (value (minSamplesForTargetMS (of_Z T) (of_Z F) (of_Z S))) as [r |] eqn:Er;
    [| discriminate].
  rewrite !andb_true_iff, !Qeq_bool_iff. intros [[[Ht Hf] Hs] Hr].
  exists (ceil_div (T * S) (1000 * F)), qt, qf, qs.
  unfold is_integer, least_cover.
  repeat split; trivial.
  - exists r. split; [exact Er | exact Hr].
  - unfold covers. rewrite Ht, Hf, Hs.
    destruct (@ceil_div_spec (T * S) (1000 * F) 0 ltac:(lia)) as [H _].
    unfold Qle, Qdiv, Qmult, Qinv, inject_Z; cbn [Qnum Qden]. nia.
  - intros k. unfold covers. rewrite Ht, Hf, Hs.
    unfold Qle, Qdiv, Qmult, Qinv, inject_Z; cbn [Qnum Qden]. intros Hk.
    apply (@ceil_div_spec (T * S) (1000 * F) k); nia.
Qed.

Lemma two_seconds_agree_holds (F : Z) :
  In F [512; 1024; 1536]%Z -> two_seconds_agree F = true.
Proof.
  intros [<- | [<- | [<- | []]]]; vm_cast_no_check (eq_refl true).
Qed.

(** For every whole number of milliseconds up to two seconds, a recommended
    frame length and the default rate, no rounding shows in the result: it is
    the least number of frames that cover the duration. *)
Lemma whole_milliseconds_least_cover (T F : Z) :
  (0 <= T <= 2000)%Z -> In F [512; 1024; 1536]%Z ->
  returns_least_cover (of_Z T) (of_Z F) default_sr.
Proof.
  intros HT HF.
  assert (R : (0 <= T < 0 + Z.of_nat (Z.to_nat 2001))%Z) by lia.
  assert (P : (0 < F)%Z) by (destruct HF as [<- | [<- | [<- | []]]]; lia).
  apply (@agrees_least_cover T F 16000 P).
  exact (@all_from_spec (fun T => agrees T F 16000) (Z.to_nat 2001) 0%Z T
           (@two_seconds_agree_holds F HF) R).
Qed.

(** * Further properties of [index.ts] *)

(** ** Computing in the monad *)

Lemma M_eta (A : Type) (m : M A) : m = (trace m, outcome m).
Proof. now destruct m. Qed.

Lemma bind_Ok (A B : Type) (t : list Event) (a : A) (f : A -> M B) :
  bind (t, Ok a) f = (t ++ trace (f a), outcome (f a)).
Proof. unfold bind. now destruct (f a). Qed.

Lemma bind_Throw (A B : Type) (t : list Event) (e : Exn) (f : A -> M B) :
  bind (t, Throw e) f = (t, Throw e).
Proof. reflexivity. Qed.

Lemma MicVAD_constructor_eq (FP : Type) (o : VadOptions) :
  @MicVAD.constructor FP o = (trace (validateOptions o), Ok (fresh_MicVAD FP o)).
Proof.
  now rewrite (M_eta (MicVAD.constructor o)), MicVAD_constructor_trace,
    MicVAD_constructor_outcome.
Qed.

Lemma AudioNodeVAD_constructor_eq (FP : Type) (o : VadOptions) :
  @AudioNodeVAD.constructor FP o
  = (trace (validateOptions o), Ok (fresh_AudioNodeVAD FP o)).
Proof.
  now rewrite (M_eta (AudioNodeVAD.constructor o)), AudioNodeVAD_constructor_trace,
    AudioNodeVAD_constructor_outcome.
Qed.

Ltac run_M :=
  cbn [bind emit ret throw trace outcome fst snd app
       getUserMedia_ok addModule_ok silero_ok
       AudioNodeVAD.set_entryNode AudioNodeVAD.set_frameProcessor
       AudioNodeVAD.set_listening AudioNodeVAD.set_speaking
       AudioNodeVAD.listening AudioNodeVAD.speaking AudioNodeVAD.frameProcessor
       AudioNodeVAD.entryNode AudioNodeVAD.options
       MicVAD.options MicVAD.stream MicVAD.audioContext MicVAD.audioNodeVAD
       fresh_MicVAD fresh_AudioNodeVAD log.debug log.warn log.error].

Section Startup.

Context {FP : Type} {fpi : FrameProcessorI FP}.

(** What [AudioNodeVAD.init] does after the constructor, by the fate of the
    two promises. *)
Lemma AudioNodeVAD_init_eq (env : Platform) (o : VadOptions) :
  AudioNodeVAD.init env (fresh_AudioNodeVAD FP o) =
  if env.(addModule_ok) then
    if env.(silero_ok) then
      ([AddModule "vad.worklet.js";
        NewAudioWorkletNode "vad-helper-worklet" o.(frameSamples);
        SileroNew; NewFrameProcessor; SetOnMessage],
       Ok (ready_AudioNodeVAD o))
    else
      ([AddModule "vad.worklet.js";
        NewAudioWorkletNode "vad-helper-worklet" o.(frameSamples);
        SileroNew],
       Throw (Rejected "Silero.new"))
  else ([AddModule "vad.worklet.js"], Throw (Rejected "addModule")).
Proof.
  unfold AudioNodeVAD.init.
  destruct (addModule_ok env), (silero_ok env); reflexivity.
Qed.

Lemma AudioNodeVAD_new_eq (env : Platform) (options : PartialVadOptions) :
  let o := spread defaultVadOptions options in
  @AudioNodeVAD.new FP fpi env options =
  (trace (validateOptions o) ++ trace (AudioNodeVAD.init env (fresh_AudioNodeVAD FP o)),
   outcome (AudioNodeVAD.init env (fresh_AudioNodeVAD FP o))).
Proof.
  intros o. unfold AudioNodeVAD.new. fold o.
  now rewrite AudioNodeVAD_constructor_eq, bind_Ok.
Qed.

(** X4: when the worklet module or the model fails to load, [AudioNodeVAD.new]
    is rejected before a frame processor exists: nothing is built and no
    message handler is installed.  A missing module stops it before the
    worklet node and the model. *)
Theorem AudioNodeVAD_new_rejected (g s : bool) (options : PartialVadOptions) :
  let o := spread defaultVadOptions options in
  @AudioNodeVAD.new FP fpi
    {| getUserMedia_ok := g; addModule_ok := false; silero_ok := s |} options
  = (trace (validateOptions o) ++ [AddModule "vad.worklet.js"],
     Throw (Rejected "addModule")) /\
  @AudioNodeVAD.new FP fpi
    {| getUserMedia_ok := g; addModule_ok := true; silero_ok := false |} options
  = (trace (validateOptions o) ++
     [AddModule "vad.worklet.js";
      NewAudioWorkletNode "vad-helper-worklet" o.(frameSamples);
      SileroNew],
     Throw (Rejected "Silero.new")).
Proof.
  intros o. split; rewrite AudioNodeVAD_new_eq; fold o;
    now rewrite AudioNodeVAD_init_eq.
Qed.

Lemma MicVAD_init_eq (env : Platform) (o : VadOptions) :
  MicVAD.init env (fresh_MicVAD FP o) =
  if env.(getUserMedia_ok) then
    match AudioNodeVAD.init env (fresh_AudioNodeVAD FP o) with
    | (t, Ok node) =>
        ([GetUserMedia; SetTrackEnabled false; NewAudioContext;
          NewMediaStreamAudioSourceNode] ++ trace (validateOptions o) ++ t ++ [Connect],
         Ok {| MicVAD.options := o; MicVAD.audioContext := Some tt;
               MicVAD.stream := Some {| MicVAD.enabled := false |};
               MicVAD.audioNodeVAD := Some node |})
    | (t, Throw e) =>
        ([GetUserMedia; SetTrackEnabled false; NewAudioContext;
          NewMediaStreamAudioSourceNode] ++ trace (validateOptions o) ++ t,
         Throw e)
    end
  else ([GetUserMedia], Throw (Rejected "getUserMedia")).
Proof.
  unfold MicVAD.init.
  destruct (getUserMedia_ok env); [| reflexivity].
  cbn [MicVAD.options fresh_MicVAD].
  pose proof (AudioNodeVAD_new_eq env (MicVAD.all_present o)) as E.
  cbv zeta in E. rewrite spread_all_present in E.
  rewrite E, AudioNodeVAD_init_eq.
  unfold AudioNodeVAD.receive, ready_AudioNodeVAD, MicVAD.source.
  destruct (addModule_ok env), (silero_ok env);
    run_M; cbn [connect_throws]; run_M; rewrite <- ?app_assoc; reflexivity.
Qed.

(** X1: when the platform grants the microphone, loads the worklet and the
    model, [MicVAD.new] resolves to an object that holds the merged options,
    twice: in itself and in its audio node; the track of the stream is
    disabled, both flags of the node are false and the frame processor is
    built from the merged options. *)
Theorem MicVAD_new_ready (options : PartialVadOptions) :
  outcome (@MicVAD.new FP fpi all_ok options)
  = Ok (ready_MicVAD (spread defaultVadOptions options)).
Proof.
  unfold MicVAD.new.
  rewrite MicVAD_constructor_eq, bind_Ok, MicVAD_init_eq, AudioNodeVAD_init_eq.
  reflexivity.
Qed.

(** X2: [MicVAD.new] validates the merged options twice: the reports of
    [validateOptions] come once before the stream is requested and again,
    the same, when [MicVAD.init] builds the audio node. *)
Theorem MicVAD_new_validates_twice (a s : bool) (options : PartialVadOptions) :
  let reports := trace (validateOptions (spread defaultVadOptions options)) in
  exists rest,
    trace (@MicVAD.new FP fpi
             {| getUserMedia_ok := true; addModule_ok := a; silero_ok := s |} options)
    = reports ++
      [GetUserMedia; SetTrackEnabled false; NewAudioContext;
       NewMediaStreamAudioSourceNode] ++
      reports ++ AddModule "vad.worklet.js" :: rest.
Proof.
  intros reports. unfold MicVAD.new.
  rewrite MicVAD_constructor_eq, bind_Ok, MicVAD_init_eq, AudioNodeVAD_init_eq.
  fold reports. destruct a, s; cbn [getUserMedia_ok addModule_ok silero_ok trace fst];
    eexists; repeat (f_equal; try reflexivity).
Qed.

(** X3: when the microphone is refused, [MicVAD.new] is rejected right after the
    request: no audio context, no worklet, no model and no frame processor
    is created. *)
Theorem MicVAD_new_refused (a s : bool) (options : PartialVadOptions) :
  @MicVAD.new FP fpi
    {| getUserMedia_ok := false; addModule_ok := a; silero_ok := s |} options
  = (trace (validateOptions (spread defaultVadOptions options)) ++ [GetUserMedia],
     Throw (Rejected "getUserMedia")).
Proof.
  unfold MicVAD.new.
  now rewrite MicVAD_constructor_eq, bind_Ok, MicVAD_init_eq.
Qed.

End Startup.

(** ** The object between its calls *)

Lemma processed_logs (logs : list Event) :
  forallb is_log logs = true -> processed logs = [].
Proof.
  induction logs as [| e logs IH]; [reflexivity |].
  cbn [forallb]. intros L. apply andb_true_iff in L. destruct L as [He L].
  destruct e; try discriminate. cbn [processed flat_map app]. now apply IH.
Qed.

Lemma processed_app (t t' : list Event) :
  processed (t ++ t') = processed t ++ processed t'.
Proof. unfold processed. apply flat_map_app. Qed.

Section Objects.

Context {FP : Type} {fpi : FrameProcessorI FP}.
Variable user_code : nat -> Arg -> @AudioNodeVAD.t FP -> @AudioNodeVAD.t FP * option Exn.

Lemma invoke_eq (role : Role) (cb : Callback) (arg : Arg) (vad : @AudioNodeVAD.t FP) :
  exists logs,
    AudioNodeVAD.invoke user_code role cb arg vad
    = (Called role cb vad.(AudioNodeVAD.speaking) :: logs,
       match cb with User h => user_code h arg vad | _ => (vad, None) end) /\
    forallb is_log logs = true.
Proof.
  unfold AudioNodeVAD.invoke.
  destruct cb; eexists; split; reflexivity.
Qed.

(** A handler throws what the function of the caller it calls throws, and
    hands no frame to [process]. *)
Lemma run_handler_eq (c : Call) (vad : @AudioNodeVAD.t FP) :
  processed (trace (AudioNodeVAD.run_handler user_code c vad)) = [] /\
  forall e,
    throws (AudioNodeVAD.run_handler user_code c vad) = Some e ->
    exists h arg v, snd (user_code h arg v) = Some e.
Proof.
  unfold AudioNodeVAD.run_handler, AudioNodeVAD.signalSpeechStart,
    AudioNodeVAD.signalSpeechEnd.
  destruct (fst c) as [cb | cb | |];
    match goal with
    | |- context [AudioNodeVAD.invoke ?u ?r ?cb ?a ?v] =>
        destruct (invoke_eq r cb a v) as [logs [-> L]];
        (split;
         [ cbn [trace fst]; change (processed (_ :: logs)) with (processed logs);
           now apply processed_logs
         | intros e; unfold throws; cbn [snd];
           destruct cb as [| | | h]; try discriminate;
           intros H; now exists h, a, v ])
    end.
Qed.

Lemma run_handlers_eq (cs : list Call) (vad : @AudioNodeVAD.t FP) :
  processed (trace (AudioNodeVAD.run_handlers user_code cs vad)) = [] /\
  forall e,
    throws (AudioNodeVAD.run_handlers user_code cs vad) = Some e ->
    exists h arg v, snd (user_code h arg v) = Some e.
Proof.
  revert vad. induction cs as [| c cs IH]; intros vad; cbn [AudioNodeVAD.run_handlers].
  - split; [reflexivity | discriminate].
  - destruct (run_handler_eq c vad) as [Ht He].
    destruct (AudioNodeVAD.run_handler user_code c vad) as [t [v [e |]]];
      cbn [and_then trace fst] in *.
    + split; [exact Ht | exact He].
    + destruct (IH v) as [Ht' He'].
      rewrite trace_after, throws_after, processed_app, Ht, Ht'.
      split; [reflexivity | exact He'].
Qed.


(** X8: the message handler ignores what is not an audio frame: dropping those
    messages from a sequence of operations changes neither the events nor
    the object. *)
Theorem other_messages_ignored (ops : list AudioNodeVAD.Op) (vad : @AudioNodeVAD.t FP) :
  AudioNodeVAD.run_ops user_code ops vad
  = AudioNodeVAD.run_ops user_code
      (filter (fun op => match op with
                         | AudioNodeVAD.OpMessage OtherMessage => false
                         | _ => true
                         end) ops)
      vad.
Proof.
  revert vad. induction ops as [| op ops IH]; intros vad; [reflexivity |].
  destruct op as [| | node | [buffer |]]; cbn [filter AudioNodeVAD.run_ops];
    try (destruct (AudioNodeVAD.run_op user_code _ vad) as [tr [v e]];
         now rewrite IH).
  cbn [AudioNodeVAD.run_op AudioNodeVAD.onmessage].
  rewrite IH. now destruct (AudioNodeVAD.run_ops user_code _ vad).
Qed.

(** *** An initialised object *)

Hypothesis user_keeps_initialised :
  forall h arg vad,
    initialised vad = true -> initialised (fst (user_code h arg vad)) = true.

Lemma run_handlers_initialised (cs : list Call) (vad : @AudioNodeVAD.t FP) :
  initialised vad = true ->
  initialised (leaves (AudioNodeVAD.run_handlers user_code cs vad)) = true.
Proof.
  revert vad. induction cs as [| c cs IH]; intros vad I; cbn [AudioNodeVAD.run_handlers].
  - exact I.
  - assert (H : initialised (leaves (AudioNodeVAD.run_handler user_code c vad)) = true).
    { unfold AudioNodeVAD.run_handler, AudioNodeVAD.signalSpeechStart,
        AudioNodeVAD.signalSpeechEnd.
      destruct (fst c) as [cb | cb | |];
        match goal with
        | |- context [AudioNodeVAD.invoke ?u ?r ?cb ?a ?v] =>
            destruct (invoke_eq r cb a v) as [logs [-> _]]
        end;
        unfold leaves; cbn [snd];
        match goal with
        | |- context [match ?k with User _ => _ | _ => _ end] => destruct k
        end;
        try apply user_keeps_initialised; exact I. }
    destruct (AudioNodeVAD.run_handler user_code c vad) as [t [v [e |]]];
      cbn [and_then]; [exact H |].
    rewrite leaves_after. now apply IH.
Qed.

(** One operation on an initialised object: the object stays initialised,
    the frame of the operation is what is handed to [process], and the
    exception is one the operation may throw. *)
Lemma run_op_initialised (op : AudioNodeVAD.Op) (vad : @AudioNodeVAD.t FP) :
  initialised vad = true ->
  initialised (leaves (AudioNodeVAD.run_op user_code op vad)) = true /\
  processed (trace (AudioNodeVAD.run_op user_code op vad)) = frame_of op /\
  forall e,
    throws (AudioNodeVAD.run_op user_code op vad) = Some e -> may_throw user_code op e.
Proof.
  intros I.
  destruct op as [| | node | [buffer |]].
  - destruct vad as [l s [fp |] [n |] o]; try discriminate.
    repeat split. discriminate.
  - destruct vad as [l s [fp |] [n |] o]; try discriminate.
    repeat split. discriminate.
  - destruct vad as [l s [fp |] [n |] o]; try discriminate.
    cbn [AudioNodeVAD.run_op AudioNodeVAD.receive AudioNodeVAD.entryNode may_throw].
    destruct (connect_throws node) as [e' |];
      (split; [reflexivity | split; [reflexivity |]]); [| discriminate].
    now intros e [= <-].
  - cbn [AudioNodeVAD.run_op AudioNodeVAD.onmessage may_throw frame_of].
    destruct (Float32Array buffer) as [frame | e'].
    + destruct (AudioNodeVAD.frameProcessor vad) as [fp |] eqn:Efp.
      2:{ unfold initialised in I. now rewrite Efp in I. }
      destruct (fp_process fp frame) as [[fp' calls] |].
      * rewrite leaves_after, trace_after, throws_after, processed_app.
        assert (I' : initialised (AudioNodeVAD.set_frameProcessor (Some fp') vad) = true).
        { unfold initialised in *. cbn [AudioNodeVAD.set_frameProcessor
            AudioNodeVAD.frameProcessor AudioNodeVAD.entryNode].
          rewrite Efp in I. exact I. }
        destruct (run_handlers_eq calls (AudioNodeVAD.set_frameProcessor (Some fp') vad))
          as [Ht He].
        rewrite Ht.
        split; [now apply run_handlers_initialised |].
        split; [reflexivity |].
        intros e H. right. now apply He.
      * split; [exact I | split; [reflexivity |]].
        intros e [= <-]. now left.
    + split; [exact I | split; [reflexivity |]].
      now intros e [= <-].
  - repeat split; trivial. discriminate.
Qed.

Lemma well_formed_throws (op : AudioNodeVAD.Op) (e : Exn) :
  (forall h arg vad, snd (user_code h arg vad) = None) ->
  well_formed op = true -> may_throw user_code op e ->
  e = Rejected "process" /\ exists frame, frame_of op = [frame].
Proof.
  intros U W.
  destruct op as [| | node | [buffer |]]; cbn [may_throw well_formed frame_of] in *;
    try contradiction.
  - destruct (connect_throws node); discriminate.
  - unfold Float32Array. rewrite W.
    intros [-> | [h [arg [v H]]]]; [split; [reflexivity | eexists; reflexivity] |].
    rewrite U in H. discriminate.
Qed.

(** X6: once [init] has run, the object stays initialised whatever is called,
    and after any sequence of operations the next one throws only what it
    may throw: [pause] and [start] nothing, [receive] what [connect] of the
    node throws, the message handler the [RangeError] of the view of a
    buffer whose byte length is not a multiple of 4, the rejection of
    [process], or what a function of the caller throws.  When the nodes
    connect, the buffers hold whole floats and the caller's functions
    return, every exception of a sequence is the rejection of [process], and
    there are no more of them than audio frames.  The caller's functions are
    assumed not to remove the fields. *)
Theorem exceptions_once_initialised (ops : list AudioNodeVAD.Op)
    (vad : @AudioNodeVAD.t FP) :
  initialised vad = true ->
  initialised (snd (AudioNodeVAD.run_ops user_code ops vad)) = true /\
  (forall op e,
     throws (AudioNodeVAD.run_op user_code op (snd (AudioNodeVAD.run_ops user_code ops vad)))
     = Some e ->
     may_throw user_code op e) /\
  ((forall h arg v, snd (user_code h arg v) = None) ->
   forallb well_formed ops = true ->
   Forall (fun e => e = Rejected "process") (thrown user_code ops vad) /\
   (List.length (thrown user_code ops vad) <= List.length (audio_frames ops))%nat).
Proof.
  intros I.
  assert (R : initialised (snd (AudioNodeVAD.run_ops user_code ops vad)) = true).
  { revert vad I. induction ops as [| op ops IH]; intros vad I; [exact I |].
    cbn [AudioNodeVAD.run_ops].
    destruct (@run_op_initialised op vad I) as [Iv _].
    destruct (AudioNodeVAD.run_op user_code op vad) as [t [v e]].
    cbn [leaves fst snd] in Iv. specialize (IH v Iv).
    now destruct (AudioNodeVAD.run_ops user_code ops v). }
  split; [exact R |].
  split.
  - intros op e. now apply run_op_initialised.
  - intros U. clear R. revert vad I.
    induction ops as [| op ops IH]; intros vad I W.
    { split; constructor. }
    cbn [thrown audio_frames flat_map forallb] in *.
    rewrite length_app.
    apply andb_true_iff in W. destruct W as [Wop W].
    destruct (@run_op_initialised op vad I) as [Iv [_ He]].
    destruct (AudioNodeVAD.run_op user_code op vad) as [t [v e]].
    cbn [leaves throws fst snd] in Iv, He.
    destruct (IH v Iv W) as [F L]. fold (audio_frames ops).
    destruct e as [e |]; [| split; [exact F | lia]].
    destruct (@well_formed_throws op e U Wop (He e eq_refl)) as [-> [frame ->]].
    split; [now constructor | cbn [List.length]; lia].
Qed.


End Objects.

Lemma exceptions_once_initialised_witness :
  initialised
    (snd (AudioNodeVAD.run_ops idle_user
            [AudioNodeVAD.OpPause; AudioNodeVAD.OpMessage (AudioFrame loud);
             AudioNodeVAD.OpStart; AudioNodeVAD.OpReceive MicVAD.source]
            (ready_AudioNodeVAD defaultVadOptions))) = true /\
  Forall (fun e => e = Rejected "process")
    (thrown idle_user
       [AudioNodeVAD.OpPause; AudioNodeVAD.OpMessage (AudioFrame loud);
        AudioNodeVAD.OpStart; AudioNodeVAD.OpReceive MicVAD.source]
       (ready_AudioNodeVAD defaultVadOptions)) /\
  (List.length
     (thrown idle_user
        [AudioNodeVAD.OpPause; AudioNodeVAD.OpMessage (AudioFrame loud);
         AudioNodeVAD.OpStart; AudioNodeVAD.OpReceive MicVAD.source]
        (ready_AudioNodeVAD defaultVadOptions))
   <= List.length
        (audio_frames
           [AudioNodeVAD.OpPause; AudioNodeVAD.OpMessage (AudioFrame loud);
            AudioNodeVAD.OpStart; AudioNodeVAD.OpReceive MicVAD.source]))%nat.
Proof.
  pose proof (@exceptions_once_initialised ExampleProcessor exampleProcessor idle_user
                (fun h arg vad H => H)
                [AudioNodeVAD.OpPause; AudioNodeVAD.OpMessage (AudioFrame loud);
                 AudioNodeVAD.OpStart; AudioNodeVAD.OpReceive MicVAD.source]
                (ready_AudioNodeVAD defaultVadOptions) eq_refl) as H.
  split; [exact (proj1 H) |].
  exact (proj2 (proj2 H) (fun h arg v => eq_refl) eq_refl).
Defined.

(** A buffer of three bytes among the messages, and a node whose [connect]
    throws: each of the two operations throws its own exception, and the
    loud frame is processed all the same. *)
Example thrown_example :
  thrown idle_user
    [AudioNodeVAD.OpMessage (AudioFrame three_bytes);
     AudioNodeVAD.OpReceive {| connect_throws := Some (Rejected "connect") |};
     AudioNodeVAD.OpMessage (AudioFrame loud)]
    (ready_AudioNodeVAD defaultVadOptions)
  = [RangeError msg_byte_length; Rejected "connect"] /\
  processed
    (fst (AudioNodeVAD.run_ops idle_user
            [AudioNodeVAD.OpMessage (AudioFrame three_bytes);
             AudioNodeVAD.OpReceive {| connect_throws := Some (Rejected "connect") |};
             AudioNodeVAD.OpMessage (AudioFrame loud)]
            (ready_AudioNodeVAD defaultVadOptions)))
  = [loud_frame].
Proof. split; vm_compute; reflexivity. Qed.


(** The frames of that sequence: the quiet one and the loud one. *)
Example audio_frames_example :
  audio_frames
    [AudioNodeVAD.OpMessage (AudioFrame quiet); AudioNodeVAD.OpPause;
     AudioNodeVAD.OpMessage OtherMessage;
     AudioNodeVAD.OpMessage (AudioFrame three_bytes);
     AudioNodeVAD.OpMessage (AudioFrame loud)]
  = [quiet_frame; loud_frame].
Proof. vm_compute. reflexivity. Qed.

(** ** The flag [speaking] and the track of the stream *)

Lemma calls_in_app (t t' : list Event) : calls_in (t ++ t') = (calls_in t + calls_in t')%nat.
Proof. unfold calls_in. now rewrite filter_app, length_app. Qed.

Lemma calls_in_logs (logs : list Event) : forallb is_log logs = true -> calls_in logs = 0%nat.
Proof.
  induction logs as [| e logs IH]; [reflexivity |].
  cbn [forallb]. intros L. apply andb_true_iff in L. destruct L as [He L].
  destruct e; try discriminate. now apply IH.
Qed.

Lemma speaking_after_cons (c : Call) (cs : list Call) (b : bool) :
  speaking_after (c :: cs) b = speaking_after cs (speaking_after [c] b).
Proof. reflexivity. Qed.

Section Flags2.

Context {FP : Type} {fpi : FrameProcessorI FP}.
Variable user_code : nat -> Arg -> @AudioNodeVAD.t FP -> @AudioNodeVAD.t FP * option Exn.

Hypothesis user_keeps_speaking :
  forall h arg vad,
    AudioNodeVAD.speaking (fst (user_code h arg vad)) = AudioNodeVAD.speaking vad.

Lemma invoke_speaking (role : Role) (cb : Callback) (arg : Arg) (vad : @AudioNodeVAD.t FP) :
  AudioNodeVAD.speaking (leaves (AudioNodeVAD.invoke user_code role cb arg vad))
  = AudioNodeVAD.speaking vad /\
  calls_in (trace (AudioNodeVAD.invoke user_code role cb arg vad)) = 1%nat.
Proof.
  destruct (invoke_eq user_code role cb arg vad) as [logs [-> L]].
  split.
  - unfold leaves. cbn [snd]. destruct cb; try reflexivity. apply user_keeps_speaking.
  - cbn [trace fst]. change (S (calls_in logs) = 1%nat). now rewrite calls_in_logs.
Qed.

(** One call of the frame processor: one callback is entered, and
    [speaking] is what the call says. *)
Lemma run_handler_speaking (c : Call) (vad : @AudioNodeVAD.t FP) :
  AudioNodeVAD.speaking (leaves (AudioNodeVAD.run_handler user_code c vad))
  = speaking_after [c] (AudioNodeVAD.speaking vad) /\
  calls_in (trace (AudioNodeVAD.run_handler user_code c vad)) = 1%nat.
Proof.
  unfold AudioNodeVAD.run_handler, AudioNodeVAD.signalSpeechStart,
    AudioNodeVAD.signalSpeechEnd, speaking_after.
  cbn [fold_left].
  destruct (fst c) as [cb | cb | |];
    match goal with
    | |- context [AudioNodeVAD.invoke ?u ?r ?k ?a ?v] =>
        destruct (invoke_speaking r k a v) as [-> ->]
    end;
    split; reflexivity.
Qed.

Lemma run_handlers_speaking (cs : list Call) (vad : @AudioNodeVAD.t FP) :
  AudioNodeVAD.speaking (leaves (AudioNodeVAD.run_handlers user_code cs vad))
  = speaking_after
      (firstn (calls_in (trace (AudioNodeVAD.run_handlers user_code cs vad))) cs)
      (AudioNodeVAD.speaking vad) /\
  (throws (AudioNodeVAD.run_handlers user_code cs vad) = None ->
   calls_in (trace (AudioNodeVAD.run_handlers user_code cs vad)) = List.length cs).
Proof.
  revert vad. induction cs as [| c cs IH]; intros vad; cbn [AudioNodeVAD.run_handlers].
  - split; reflexivity.
  - destruct (run_handler_speaking c vad) as [Hs Hc].
    destruct (AudioNodeVAD.run_handler user_code c vad) as [t [v [e |]]];
      cbn [and_then leaves trace fst snd] in *.
    + rewrite Hc. cbn [firstn]. split; [exact Hs | discriminate].
    + destruct (IH v) as [IHs IHc].
      rewrite leaves_after, trace_after, throws_after, calls_in_app, Hc.
      cbn [Nat.add firstn List.length].
      rewrite speaking_after_cons, <- Hs.
      split; [exact IHs | intros H; now rewrite IHc].
Qed.

(** X9: the arrow function given as [signalSpeechStart] leaves [speaking]
    true and the one given as [signalSpeechEnd] leaves it false, also when
    the callback they call throws.  After the calls the frame processor
    makes for a frame, [speaking] is what the last speech signal among the
    calls that were made says: true after a start, false after an end,
    unchanged when there was none; the reports of the probabilities and the
    misfires do not touch it.  A call that throws ends the calls; when none
    throws, all of them were made.  The handlers throw nothing of their own:
    an exception is one a function of the caller threw.  The caller's
    functions are assumed not to assign [speaking]. *)
Theorem speaking_follows_last_signal (cs : list Call) (vad : @AudioNodeVAD.t FP) :
  AudioNodeVAD.speaking (leaves (AudioNodeVAD.signalSpeechStart user_code vad)) = true /\
  (forall audio,
     AudioNodeVAD.speaking (leaves (AudioNodeVAD.signalSpeechEnd user_code audio vad))
     = false) /\
  AudioNodeVAD.speaking (leaves (AudioNodeVAD.run_handlers user_code cs vad))
  = speaking_after
      (firstn (calls_in (trace (AudioNodeVAD.run_handlers user_code cs vad))) cs)
      (AudioNodeVAD.speaking vad) /\
  (throws (AudioNodeVAD.run_handlers user_code cs vad) = None ->
   AudioNodeVAD.speaking (leaves (AudioNodeVAD.run_handlers user_code cs vad))
   = speaking_after cs (AudioNodeVAD.speaking vad)) /\
  (forall e,
     throws (AudioNodeVAD.run_handlers user_code cs vad) = Some e ->
     exists h arg v, snd (user_code h arg v) = Some e).
Proof.
  destruct (run_handlers_speaking cs vad) as [Hs Hc].
  split; [| split; [| split; [| split]]].
  - exact (proj1 (run_handler_speaking (SpeechStartClosure, NoArg) vad)).
  - intros audio. exact (proj1 (run_handler_speaking (SpeechEndClosure, audio) vad)).
  - exact Hs.
  - intros H. rewrite Hs, (Hc H), firstn_all. reflexivity.
  - exact (proj2 (run_handlers_eq user_code cs vad)).
Qed.

End Flags2.

Lemma speaking_follows_last_signal_witness :
  AudioNodeVAD.speaking
    (leaves (AudioNodeVAD.run_handlers idle_user
               [(FrameProcessedOption Noop, NoArg); (SpeechStartClosure, NoArg);
                (MisfireOption Noop, NoArg)]
               (ready_AudioNodeVAD defaultVadOptions)))
  = speaking_after
      [(FrameProcessedOption Noop, NoArg); (SpeechStartClosure, NoArg);
       (MisfireOption Noop, NoArg)]
      false.
Proof.
  exact (proj1 (proj2 (proj2 (proj2
           (@speaking_follows_last_signal ExampleProcessor idle_user
              (fun _ _ _ => eq_refl)
              [(FrameProcessedOption Noop, NoArg); (SpeechStartClosure, NoArg);
               (MisfireOption Noop, NoArg)]
              (ready_AudioNodeVAD defaultVadOptions))))) eq_refl).
Defined.

(** A caller whose [onSpeechStart] throws: the handler of the message is
    rejected with that exception after the report of the probabilities, and
    [speaking] is true. *)
Example throwing_onSpeechStart :
  trace (AudioNodeVAD.onmessage throwing_user (AudioFrame loud)
           (ready_AudioNodeVAD (FP := ExampleProcessor) with_callbacks))
  = [FrameProcessorProcess loud_frame;
     Called OnFrameProcessed Noop false;
     Called OnSpeechStart (User 0) true] /\
  throws (AudioNodeVAD.onmessage throwing_user (AudioFrame loud)
            (ready_AudioNodeVAD (FP := ExampleProcessor) with_callbacks))
  = Some (Rejected "callback") /\
  AudioNodeVAD.speaking
    (leaves (AudioNodeVAD.onmessage throwing_user (AudioFrame loud)
               (ready_AudioNodeVAD (FP := ExampleProcessor) with_callbacks)))
  = true.
Proof. repeat split; vm_compute; reflexivity. Qed.

Section Track.

Context {FP : Type} {fpi : FrameProcessorI FP}.

Lemma MicVAD_call_eq (m : Method) (o : VadOptions) (ctx : option unit) (b : bool)
    (node : @AudioNodeVAD.t FP) (fp : FP) :
  AudioNodeVAD.frameProcessor node = Some fp ->
  exists t node',
    MicVAD_call m
      {| MicVAD.options := o; MicVAD.audioContext := ctx;
         MicVAD.stream := Some {| MicVAD.enabled := b |};
         MicVAD.audioNodeVAD := Some node |}
    = (t, Ok {| MicVAD.options := o; MicVAD.audioContext := ctx;
                MicVAD.stream := Some {| MicVAD.enabled := enabled_after [m] b |};
                MicVAD.audioNodeVAD := Some node' |}) /\
    AudioNodeVAD.frameProcessor node' = Some (processor_after [m] fp) /\
    AudioNodeVAD.speaking node' = AudioNodeVAD.speaking node /\
    AudioNodeVAD.options node' = AudioNodeVAD.options node.
Proof.
  destruct node as [l s f n o']. cbn [AudioNodeVAD.frameProcessor]. intros ->.
  destruct m; eexists; eexists; (split; [reflexivity |]); repeat split.
Qed.

(** X10: on the object [MicVAD.new] resolves to, [pause] and [start] always
    succeed, and after any sequence of them the track of the microphone is
    enabled exactly when the last call was [start]; the frame processor has
    been paused and resumed in the same order, and [speaking] and the options
    are as they were. *)
Theorem track_follows_last_call (ms : list Method) (o : VadOptions)
    (ctx : option unit) (b : bool) (node : @AudioNodeVAD.t FP) (fp : FP) :
  AudioNodeVAD.frameProcessor node = Some fp ->
  exists t node',
    MicVAD_calls ms
      {| MicVAD.options := o; MicVAD.audioContext := ctx;
         MicVAD.stream := Some {| MicVAD.enabled := b |};
         MicVAD.audioNodeVAD := Some node |}
    = (t, Ok {| MicVAD.options := o; MicVAD.audioContext := ctx;
                MicVAD.stream := Some {| MicVAD.enabled := enabled_after ms b |};
                MicVAD.audioNodeVAD := Some node' |}) /\
    AudioNodeVAD.frameProcessor node' = Some (processor_after ms fp) /\
    AudioNodeVAD.speaking node' = AudioNodeVAD.speaking node /\
    AudioNodeVAD.options node' = AudioNodeVAD.options node.
Proof.
  revert b node fp. induction ms as [| m ms IH]; intros b node fp Hfp.
  - exists [], node. repeat split; trivial.
  - cbn [MicVAD_calls].
    destruct (@MicVAD_call_eq m o ctx b node fp Hfp) as [t [n1 [-> [F1 [S1 O1]]]]].
    destruct (IH (enabled_after [m] b) n1 (processor_after [m] fp) F1)
      as [t' [n2 [E [F2 [S2 O2]]]]].
    rewrite bind_Ok, E. exists (t ++ t'), n2.
    repeat split; trivial; congruence.
Qed.

End Track.

Lemma track_follows_last_call_witness :
  exists t node',
    MicVAD_calls [CallStart; CallPause; CallStart]
      (ready_MicVAD (FP := ExampleProcessor) defaultVadOptions)
    = (t, Ok {| MicVAD.options := defaultVadOptions; MicVAD.audioContext := Some tt;
                MicVAD.stream := Some {| MicVAD.enabled := true |};
                MicVAD.audioNodeVAD := Some node' |}) /\
    AudioNodeVAD.frameProcessor node'
    = Some (processor_after [CallStart; CallPause; CallStart]
              (fp_new (AudioNodeVAD.frameProcessorOptions
                         (fresh_AudioNodeVAD ExampleProcessor defaultVadOptions)))) /\
    AudioNodeVAD.speaking node' = false /\
    AudioNodeVAD.options node' = defaultVadOptions.
Proof.
  apply (@track_follows_last_call ExampleProcessor exampleProcessor
           [CallStart; CallPause; CallStart] defaultVadOptions (Some tt) false
           (ready_AudioNodeVAD defaultVadOptions)
           (fp_new (AudioNodeVAD.frameProcessorOptions
                      (fresh_AudioNodeVAD ExampleProcessor defaultVadOptions)))
           eq_refl).
Defined.

(** ** More on [validateOptions] *)

Lemma lt_NaN_l (x : number) : lt S754_nan x = false.
Proof. reflexivity. Qed.

Lemma lt_NaN_r (x : number) : lt x S754_nan = false.
Proof. now destruct x. Qed.

(** X12: no test of [validateOptions] holds of NaN: a configuration whose
    thresholds and frame counts are all NaN is reported by no error at all,
    only by the warning about the frame length. *)
Theorem NaN_options_unreported (o : VadOptions) :
  o.(positiveSpeechThreshold) = S754_nan ->
  o.(negativeSpeechThreshold) = S754_nan ->
  o.(preSpeechPadFrames) = S754_nan ->
  o.(redemptionFrames) = S754_nan ->
  no_error (trace (validateOptions o)) = true.
Proof.
  intros Hp Hn Hpad Hr.
  rewrite validateOptions_trace.
  unfold positive_reported, negative_reported, pad_reported, redemption_reported, gt.
  rewrite Hp, Hn, Hpad, Hr, !lt_NaN_l, !lt_NaN_r. cbn [orb app].
  now destruct (unusual_frame_size o).
Qed.

Lemma NaN_options_unreported_witness :
  no_error (trace (validateOptions all_NaN)) = true.
Proof.
  exact (@NaN_options_unreported all_NaN eq_refl eq_refl eq_refl eq_refl).
Defined.

(** The order of two doubles is transitive. *)
Lemma number_le_trans (x y z : number) : le x y = true -> le y z = true -> le x z = true.
Proof.
  unfold le, SFleb.
  destruct x as [sx | sx | | sx mx ex], y as [sy | sy | | sy my ey],
    z as [sz | sz | | sz mz ez]; cbn [SFcompare];
    try discriminate; try reflexivity;
    try (destruct sx; discriminate); try (destruct sy; discriminate);
    try (destruct sz; discriminate);
    try (destruct sx, sy; discriminate); try (destruct sy, sz; discriminate);
    try (destruct sx, sz; (discriminate || reflexivity));
    try (destruct sx, sy, sz; (discriminate || reflexivity)).
  destruct sx, sy, sz; try discriminate; try reflexivity;
    change (Pos.compare_cont Eq) with Pos.compare;
    destruct (Z.compare_spec ex ey), (Z.compare_spec ey ez), (Z.compare_spec ex ez);
    try lia; try discriminate; try reflexivity; subst;
    destruct (Pos.compare_spec mx my), (Pos.compare_spec my mz),
      (Pos.compare_spec mx mz);
    cbn [CompOpp]; try lia; try discriminate; try reflexivity.
Qed.

(** X11: a configuration within the ranges the messages of [validateOptions]
    name, [0 <= negative <= positive <= 1] with frame counts that are not
    negative, is reported by no error, whatever its callbacks, its frame
    length and its [minSpeechFrames]. *)
Theorem options_in_range_unreported (o : VadOptions) :
  le (of_Z 0) o.(negativeSpeechThreshold) = true ->
  le o.(negativeSpeechThreshold) o.(positiveSpeechThreshold) = true ->
  le o.(positiveSpeechThreshold) (of_Z 1) = true ->
  le (of_Z 0) o.(preSpeechPadFrames) = true ->
  le (of_Z 0) o.(redemptionFrames) = true ->
  no_error (trace (validateOptions o)) = true.
Proof.
  intros H0 Hnp Hp1 Hpad Hred.
  rewrite validateOptions_trace.
  unfold positive_reported, negative_reported, pad_reported, redemption_reported.
  rewrite (@le_not_lt_flip _ _ (@number_le_trans _ _ _ H0 Hnp)), (@le_not_gt _ _ (@number_le_trans _ _ _ Hnp Hp1)),
    (@le_not_lt_flip _ _ H0), (@le_not_gt _ _ Hnp),
    (@le_not_lt_flip _ _ Hpad), (@le_not_lt_flip _ _ Hred).
  cbn [orb app].
  now destruct (unusual_frame_size o).
Qed.

Lemma options_in_range_unreported_witness :
  no_error (trace (validateOptions long_frames)) = true.
Proof.
  apply (@options_in_range_unreported long_frames); vm_compute; reflexivity.
Defined.

(** X13: the log does not tell a negative [redemptionFrames] from a negative
    [preSpeechPadFrames]: both are reported with the message about
    [preSpeechPadFrames], so exchanging the two options leaves the reports
    as they are. *)
Theorem pad_and_redemption_indistinguishable (o : VadOptions) :
  trace (validateOptions (swap_pad_redemption o)) = trace (validateOptions o).
Proof.
  rewrite !validateOptions_trace.
  unfold pad_reported, redemption_reported.
  change (unusual_frame_size (swap_pad_redemption o)) with (unusual_frame_size o).
  change (positive_reported (swap_pad_redemption o)) with (positive_reported o).
  change (negative_reported (swap_pad_redemption o)) with (negative_reported o).
  cbn [swap_pad_redemption preSpeechPadFrames redemptionFrames].
  now destruct (lt (preSpeechPadFrames o) (of_Z 0)), (lt (redemptionFrames o) (of_Z 0)).
Qed.

(** ** More on [minSamplesForTargetMS] *)

Lemma mul_NaN_r (x : number) : mul x S754_nan = S754_nan.
Proof. now destruct x. Qed.

Lemma div_NaN_r (x : number) : div x S754_nan = S754_nan.
Proof. now destruct x. Qed.

(** X17: NaN in, NaN out: when any of the three arguments is NaN, so is the
    result. *)
Theorem minSamplesForTargetMS_NaN (t fs sr : number) :
  t = S754_nan \/ fs = S754_nan \/ sr = S754_nan ->
  minSamplesForTargetMS t fs sr = S754_nan.
Proof.
  unfold minSamplesForTargetMS.
  intros [-> | [-> | ->]].
  - reflexivity.
  - now rewrite div_NaN_r.
  - now rewrite mul_NaN_r.
Qed.

Lemma minSamplesForTargetMS_NaN_witness :
  minSamplesForTargetMS (of_Z 30) S754_nan default_sr = S754_nan.
Proof.
  apply minSamplesForTargetMS_NaN. right; left; reflexivity.
Defined.

Lemma Math_ceil_isFinite (x : number) : isFinite (Math_ceil x) = isFinite x.
Proof.
  destruct x as [s | s | | s m [| e | p]]; try reflexivity.
  cbn [Math_ceil]. destruct (ceilZ s m (Zneg p)); try reflexivity;
    unfold of_pos; now destruct (shl_align _ _ _).
Qed.

(** X16: a frame length of zero never gives a count: the division by zero makes
    the result an infinity or NaN, whatever the duration and the rate. *)
Theorem minSamplesForTargetMS_zero_frame (t sr : number) (s : bool) :
  isFinite (minSamplesForTargetMS t (S754_zero s) sr) = false.
Proof.
  unfold minSamplesForTargetMS. rewrite Math_ceil_isFinite.
  now destruct (div (mul t sr) (of_Z 1000)).
Qed.

(** X15: a duration of zero needs no frame: for a finite rate and a frame length
    that is neither zero nor NaN the result is a zero. *)
Theorem minSamplesForTargetMS_zero_duration (s : bool) (fs sr : number) :
  isFinite sr = true ->
  fs <> S754_nan -> (forall s', fs <> S754_zero s') ->
  exists s', minSamplesForTargetMS (S754_zero s) fs sr = S754_zero s'.
Proof.
  intros Hsr Hnan Hz. unfold minSamplesForTargetMS.
  assert (A : exists s1, mul (S754_zero s) sr = S754_zero s1).
  { destruct sr; try discriminate; eexists; reflexivity. }
  destruct A as [s1 ->].
  change (div (S754_zero s1) (of_Z 1000)) with (S754_zero (xorb s1 false)).
  destruct fs as [s2 | s2 | | s2 m e].
  - now destruct (Hz s2).
  - eexists; reflexivity.
  - now destruct Hnan.
  - eexists; reflexivity.
Qed.

Lemma minSamplesForTargetMS_zero_duration_witness :
  exists s', minSamplesForTargetMS (S754_zero false) (of_Z 1536) default_sr = S754_zero s'.
Proof.
  apply minSamplesForTargetMS_zero_duration;
    [reflexivity | vm_compute; discriminate | vm_compute; discriminate].
Defined.

(** *** The sign of a rounded result *)

Lemma iter_pos_invariant (A : Type) (P : A -> Prop) (f : A -> A) :
  (forall x, P x -> P (f x)) -> forall p x, P x -> P (iter_pos f p x).
Proof.
  intros Hf. induction p as [p IH | p IH |]; intros x Hx; cbn [iter_pos]; auto.
Qed.

Lemma shr_1_nonneg (mrs : shr_record) : (0 <= shr_m mrs)%Z -> (0 <= shr_m (shr_1 mrs))%Z.
Proof.
  destruct mrs as [m r s]. destruct m as [| p | p]; cbn; try lia;
    destruct p; cbn; lia.
Qed.

Lemma shr_fexp_nonneg (m e : Z) (l : location) :
  (0 <= m)%Z -> (0 <= shr_m (fst (shr_fexp prec emax m e l)))%Z.
Proof.
  intros Hm. unfold shr_fexp, shr.
  assert (H : shr_m (shr_record_of_loc m l) = m) by (now destruct l as [| []]).
  destruct (fexp prec emax (Zdigits2 m + e) - e)%Z as [| p | p]; cbn [fst];
    try (rewrite H; exact Hm).
  apply (@iter_pos_invariant _ (fun mrs => (0 <= shr_m mrs)%Z));
    [exact shr_1_nonneg | now rewrite H].
Qed.

Lemma round_nearest_even_nonneg (m : Z) (l : location) :
  (0 <= m)%Z -> (0 <= round_nearest_even m l)%Z.
Proof.
  intros Hm. destruct l as [| []]; cbn; try lia. destruct (Z.even m); lia.
Qed.

(** Rounding keeps the sign and makes no NaN. *)
Lemma binary_round_aux_signed (s : bool) (m e : Z) (l : location) :
  (0 <= m)%Z -> signed_is s (binary_round_aux prec emax s m e l).
Proof.
  intros Hm. unfold binary_round_aux.
  pose proof (@shr_fexp_nonneg m e l Hm) as H1.
  destruct (shr_fexp prec emax m e l) as [mrs' e']. cbn [fst] in H1.
  pose proof (@shr_fexp_nonneg _ e' loc_Exact
                (@round_nearest_even_nonneg _ (loc_of_shr_record mrs') H1)) as H2.
  destruct (shr_fexp prec emax _ e' loc_Exact) as [mrs'' e'']. cbn [fst] in H2.
  destruct (shr_m mrs'') as [| p | p]; [reflexivity | | lia].
  now destruct (e'' <=? emax - prec)%Z.
Qed.

Lemma signed_false_nonnegative (x : number) :
  signed_is false x -> nonnegative x = true.
Proof. destruct x as [s | s | | s m e]; cbn [signed_is]; intros H; now subst. Qed.

Lemma zero_nonnegative (s : bool) : nonnegative (S754_zero s) = true.
Proof. reflexivity. Qed.

Lemma nonnegative_finite (s : bool) (m : positive) (e : Z) :
  nonnegative (S754_finite s m e) = true -> s = false.
Proof. now destruct s. Qed.

Lemma mul_nonnegative (x y : number) :
  isFinite x = true -> nonnegative x = true ->
  isFinite y = true -> nonnegative y = true ->
  nonnegative (mul x y) = true.
Proof.
  destruct x as [sx | sx | | sx mx ex], y as [sy | sy | | sy my ey];
    try discriminate; intros _ Hx _ Hy; try apply zero_nonnegative.
  apply nonnegative_finite in Hx, Hy. subst.
  apply signed_false_nonnegative.
  apply (@binary_round_aux_signed false). lia.
Qed.

Lemma SFdiv_core_nonneg (mx my : positive) (ex ey : Z) :
  (0 <= fst (fst (SFdiv_core_binary prec emax (Zpos mx) ex (Zpos my) ey)))%Z.
Proof.
  unfold SFdiv_core_binary.
  set (s := (ex - ey - _)%Z).
  set (m' := match s with Zpos _ => Z.shiftl (Zpos mx) s | Z0 => Zpos mx | Zneg _ => 0%Z end).
  assert (Hm : (0 <= m')%Z).
  { unfold m'. destruct s; try lia. apply Z.shiftl_nonneg. lia. }
  pose proof (@Z.div_pos m' (Zpos my) Hm ltac:(lia)) as Hq.
  unfold Z.div in Hq.
  now destruct (Z.div_eucl m' (Zpos my)).
Qed.

Lemma div_nonnegative (x : number) (m : positive) (e : Z) :
  nonnegative x = true -> nonnegative (div x (S754_finite false m e)) = true.
Proof.
  destruct x as [sx | sx | | sx mx ex]; try discriminate; intros Hx.
  - apply zero_nonnegative.
  - now destruct sx.
  - apply nonnegative_finite in Hx. subst.
    apply signed_false_nonnegative. unfold div, SFdiv.
    pose proof (SFdiv_core_nonneg mx m ex e) as H.
    destruct (SFdiv_core_binary prec emax (Zpos mx) ex (Zpos m) e) as [[mz ez] lz].
    now apply binary_round_aux_signed.
Qed.

Lemma Math_ceil_nonnegative (x : number) :
  nonnegative x = true -> nonnegative (Math_ceil x) = true.
Proof.
  destruct x as [s | s | | s m [| e | p]]; trivial.
  intros Hx. apply nonnegative_finite in Hx. subst.
  cbn [Math_ceil]. unfold ceilZ. cbn [cond_Zopp].
  assert (HD : (0 < Z.pow_pos 2 p)%Z).
  { rewrite Z.pow_pos_fold. apply Z.pow_pos_nonneg; lia. }
  destruct (@ceil_div_spec (Zpos m) (Z.pow_pos 2 p) 0 HD) as [H _].
  destruct (ceil_div (Zpos m) (Z.pow_pos 2 p)) as [| k | k]; [reflexivity | | lia].
  unfold of_pos. now destruct (shl_align _ _ _).
Qed.

Lemma positive_is_finite (x : number) :
  isFinite x = true -> gt x (of_Z 0) = true -> exists m e, x = S754_finite false m e.
Proof.
  destruct x as [s | s | | s m e]; try discriminate.
  destruct s; [discriminate |]. intros _ _. now exists m, e.
Qed.

Lemma nonnegative_value (x : number) (q : Q) :
  nonnegative x = true -> value x = Some q -> (0 <= q)%Q.
Proof.
  destruct x as [s | s | | s m e]; try discriminate.
  - intros _ [= <-]. apply Qle_refl.
  - intros H [= <-]. apply nonnegative_finite in H. subst.
    unfold F2Q. cbn [cond_Zopp].
    apply Qmult_le_0_compat; [discriminate | now apply Qpower_0_le].
Qed.

(** X14: for a finite duration of at least 0, a finite positive rate and a finite
    positive frame length the result is never NaN and never negative: it is
    [+Infinity], when the product overflows, or else a whole number of frames
    that is at least 0. *)
Theorem minSamplesForTargetMS_nonnegative (t fs sr : number) :
  isFinite t = true -> ge t (of_Z 0) = true ->
  isFinite fs = true -> gt fs (of_Z 0) = true ->
  isFinite sr = true -> gt sr (of_Z 0) = true ->
  nonnegative (minSamplesForTargetMS t fs sr) = true /\
  (minSamplesForTargetMS t fs sr = S754_infinity false \/
   exists n, (0 <= n)%Z /\ is_integer (minSamplesForTargetMS t fs sr) n).
Proof.
  intros Ft Ht Ffs Hfs Fsr Hsr.
  destruct (@positive_is_finite fs Ffs Hfs) as [mf [ef ->]].
  destruct (@positive_is_finite sr Fsr Hsr) as [ms [es ->]].
  assert (Q1 : nonnegative (quotient t (S754_finite false mf ef) (S754_finite false ms es))
               = true).
  { unfold quotient. apply div_nonnegative.
    change (of_Z 1000) with (S754_finite false 8796093022208000 (-43)).
    apply div_nonnegative. now apply mul_nonnegative. }
  pose proof (Math_ceil_nonnegative _ Q1) as R.
  change (Math_ceil (quotient t (S754_finite false mf ef) (S754_finite false ms es)))
    with (minSamplesForTargetMS t (S754_finite false mf ef) (S754_finite false ms es))
    in R.
  split; [exact R |].
  destruct (isFinite (minSamplesForTargetMS t (S754_finite false mf ef)
                        (S754_finite false ms es))) eqn:F.
  - right.
    unfold minSamplesForTargetMS in F. rewrite Math_ceil_isFinite in F.
    fold (quotient t (S754_finite false mf ef) (S754_finite false ms es)) in F.
    destruct (value (quotient t (S754_finite false mf ef) (S754_finite false ms es)))
      as [q |] eqn:Hq;
      [| now destruct (quotient t (S754_finite false mf ef) (S754_finite false ms es))].
    destruct (@minSamplesForTargetMS_ceiling _ _ _ q Hq) as [n [Hn [Hle _]]].
    exists n. split; [| exact Hn].
    pose proof (@nonnegative_value _ q Q1 Hq) as H0.
    rewrite Zle_Qle. now apply Qle_trans with q.
  - left.
    destruct (minSamplesForTargetMS t (S754_finite false mf ef) (S754_finite false ms es))
      as [s | s | | s m e]; try discriminate.
    now destruct s.
Qed.

Lemma minSamplesForTargetMS_nonnegative_witness :
  nonnegative (minSamplesForTargetMS (of_Z 100) (of_Z 1536) default_sr) = true /\
  (minSamplesForTargetMS (of_Z 100) (of_Z 1536) default_sr = S754_infinity false \/
   exists n, (0 <= n)%Z /\
             is_integer (minSamplesForTargetMS (of_Z 100) (of_Z 1536) default_sr) n).
Proof.
  apply minSamplesForTargetMS_nonnegative; vm_compute; reflexivity.
Defined.

(** The product overflows for a duration near the largest double: the result
    is [+Infinity]. *)
Example minSamplesForTargetMS_overflow :
  minSamplesForTargetMS (S754_finite false 9007199254740991 971) (of_Z 1) default_sr
  = S754_infinity false.
Proof. vm_compute. reflexivity. Qed.
